(** * elk-notifier: the delivery and requeue flows of [app.js]

    [app.js] starts six asynchronous tasks against two remote services, an
    Elasticsearch client and a Slack client: one task drains the
    [unsent-slacks] index, and one task per alert type polls an alert index,
    posts every alert to Slack and requeues what could not be posted.

    The embedding follows the script line by line.
    - JavaScript values are a datatype [value]; property access, template
      conversion and multiplication follow ECMAScript on that datatype.
    - Numbers are binary64 floats (the kernel's primitive floats), and
      [Number_toString] is the ECMAScript number-to-string conversion.
    - An [async] body is a [task]: a tree of awaited calls.  [run] plays a
      task against an environment, which answers every awaited call with a
      completion (a value, or a thrown error), and records the calls with
      their answers in a trace.  Theorems quantify over all environments. *)

From Stdlib Require Import ZArith List String Ascii Bool Lia.
From Stdlib Require Import DecimalString.
From Stdlib Require Import PrimFloat FloatOps SpecFloat Uint63.
Import ListNotations.

Set Implicit Arguments.
Set Warnings "-register-all".
Open Scope string_scope.
Open Scope list_scope.

(** String concatenation, as [+] and template literals do it. *)
Infix "+++" := String.append (right associativity, at level 60).

(** ** Completions: a JavaScript evaluation returns or throws *)

(** What the script can see thrown.  [TypeError] and [SyntaxError] come from
    the language runtime, [Error] from [new Error(msg)] in the script,
    [ResponseError] (an HTTP status, 404 for a document that is not there) and
    [ConnectionError] from the Elasticsearch client, [SlackError] from the
    Slack client. *)
Inductive exn : Type :=
| TypeError
| SyntaxError
| Error (msg : string)
| ResponseError (statusCode : Z)
| ConnectionError
| SlackError (code : string).

Inductive completion (A : Type) : Type :=
| Normal (a : A)
| Throw (e : exn).

Arguments Normal {A} a.
Arguments Throw {A} e.

Definition cbind {A B} (c : completion A) (k : A -> completion B) : completion B :=
  match c with
  | Normal a => k a
  | Throw e => Throw e
  end.

Declare Scope completion_scope.
Delimit Scope completion_scope with completion.
Notation "x <- c ;; k" := (cbind c (fun x => k))
  (at level 61, c at next level, right associativity) : completion_scope.

(** ** Values *)

(** Strings are sequences of code units; a Rocq [string] holds the code units
    below 256, which covers every literal of the script. *)
Inductive value : Type :=
| Undefined
| Null
| Bool (b : bool)
| Num (x : float)
| Str (s : string)
| Arr (items : list value)
| Obj (fields : list (string * value)).

Fixpoint assoc (k : string) (fields : list (string * value)) : option value :=
  match fields with
  | [] => None
  | (k', v) :: rest => if String.eqb k k' then Some v else assoc k rest
  end.

Definition has_own (k : string) (fields : list (string * value)) : bool :=
  match assoc k fields with Some _ => true | None => false end.

Definition of_nat (n : nat) : float := PrimFloat.of_uint63 (Uint63.of_Z (Z.of_nat n)).

(** [v.k] for the property names the script reads ([_id], [_source], [hits],
    [host], [ok], [length], ...).  Reading a property of [undefined] or [null]
    throws; a missing property reads as [undefined]; strings and arrays have
    a [length]. *)
Definition get (v : value) (k : string) : completion value :=
  match v with
  | Undefined | Null => Throw TypeError
  | Bool _ | Num _ => Normal Undefined
  | Str s => if String.eqb k "length" then Normal (Num (of_nat (String.length s))) else Normal Undefined
  | Arr items => if String.eqb k "length" then Normal (Num (of_nat (List.length items))) else Normal Undefined
  | Obj fields => match assoc k fields with Some x => Normal x | None => Normal Undefined end
  end.

(** [v.k1.k2...kn], left to right. *)
Fixpoint get_path (v : value) (path : list string) : completion value :=
  match path with
  | [] => Normal v
  | k :: rest => cbind (get v k) (fun x => get_path x rest)
  end.

(** ** Number to string (ECMAScript Number::toString, radix 10) *)

Module NumberToString.
Open Scope Z_scope.

Definition digits (z : Z) : string := NilZero.string_of_uint (N.to_uint (Z.to_N z)).

Fixpoint zeros (n : nat) : string :=
  match n with O => "" | S n' => String "0" (zeros n') end.

Definition take (n : nat) (s : string) : string := String.substring 0 n s.
Definition drop (n : nat) (s : string) : string := String.substring n (String.length s - n) s.

(** A decimal candidate [s * 10^(n-k)] with [k] digits, and its distance to
    the number, in the fixed-point unit chosen below. *)
Record candidate : Type := { c_s : Z; c_n : Z; c_dist : Z }.

Section Finite.
(** The number is [m * 2^e], with [m > 0] as [Prim2SF] gives it. *)
Variables (m e : Z).

(** Everything is counted in units of [10^E]: a quarter of the last binary
    place is [quarter] units, so the number and the two ends of its rounding
    interval are integers. *)
Definition E : Z := Z.min (e - 2) 0.
Definition quarter : Z := 2 ^ Z.max (e - 2) 0 * 5 ^ (- E).
Definition X : Z := 4 * m * quarter.
(** The float just below is half as far when [m] is the smallest normal
    significand. *)
Definition low_gap : Z := if (m =? 2 ^ 52) && (-1074 <? e) then 1 else 2.
Definition L : Z := (4 * m - low_gap) * quarter.
Definition H : Z := (4 * m + 2) * quarter.

(** Round to nearest, ties to even: the ends round to the number exactly when
    its significand is even. *)
Definition rounds_here (v : Z) : bool :=
  if Z.even m then (L <=? v) && (v <=? H) else (L <? v) && (v <? H).

Definition candidates_at (k n : Z) : list candidate :=
  let q := n - k in
  if q <? E then []
  else
    let u := 10 ^ (q - E) in
    let s0 := X / u in
    map (fun s => {| c_s := s; c_n := n; c_dist := Z.abs (s * u - X) |})
        (filter (fun s => (10 ^ (k - 1) <=? s) && (s <? 10 ^ k) && rounds_here (s * u))
                [s0; s0 + 1]).

Definition n_est : Z := Z.of_nat (String.length (digits X)) + E.

Definition candidates (k : Z) : list candidate :=
  candidates_at k (n_est - 1) ++ candidates_at k n_est ++ candidates_at k (n_est + 1).

(** The closest candidate; of two equally close, the even one. *)
Definition better (a b : candidate) : candidate :=
  if c_dist b <? c_dist a then b
  else if (c_dist b =? c_dist a) && Z.even (c_s b) && negb (Z.even (c_s a)) then b
  else a.

Definition closest (l : list candidate) : option candidate :=
  match l with
  | [] => None
  | c :: rest => Some (fold_left better rest c)
  end.

(** The least number of digits [k] that has a candidate; seventeen digits
    always have one. *)
Fixpoint shortest (fuel : nat) (k : Z) : Z * candidate :=
  match closest (candidates k), fuel with
  | Some c, _ => (k, c)
  | None, S fuel' => shortest fuel' (k + 1)
  | None, O => (Z.of_nat (String.length (digits X)), {| c_s := X; c_n := n_est; c_dist := 0 |})
  end.

Definition render (k : Z) (c : candidate) : string :=
  let ds := digits (c_s c) in
  let n := c_n c in
  if (k <=? n) && (n <=? 21) then ds +++ zeros (Z.to_nat (n - k))
  else if (0 <? n) && (n <=? 21) then take (Z.to_nat n) ds +++ "." +++ drop (Z.to_nat n) ds
  else if (-6 <? n) && (n <=? 0) then "0." +++ zeros (Z.to_nat (- n)) +++ ds
  else
    let ex := (if n - 1 <? 0 then "-" else "+") +++ digits (Z.abs (n - 1)) in
    if k =? 1 then ds +++ "e" +++ ex
    else take 1 ds +++ "." +++ drop 1 ds +++ "e" +++ ex.

Definition finite_to_string : string :=
  let '(k, c) := shortest 17 1 in render k c.

End Finite.

Definition Number_toString (x : float) : string :=
  match Prim2SF x with
  | S754_nan => "NaN"
  | S754_zero _ => "0"
  | S754_infinity s => (if s then "-" else "") +++ "Infinity"
  | S754_finite s m e => (if s then "-" else "") +++ finite_to_string (Zpos m) e
  end.

End NumberToString.

Export NumberToString(Number_toString).

(** ** Conversions *)

(** ToBoolean. *)
Definition truthy (v : value) : bool :=
  match v with
  | Undefined | Null => false
  | Bool b => b
  | Num x => negb (PrimFloat.eqb x 0 || PrimFloat.is_nan x)
  | Str s => negb (String.eqb s "")
  | Arr _ | Obj _ => true
  end.

(** ToString, as a template literal applies it.  An array joins its items
    with commas, [undefined] and [null] items giving the empty string.  A
    plain object gives [[object Object]]; one that has an own [toString]
    property, which in decoded JSON is never a function, has no primitive
    value and the conversion throws. *)
Fixpoint ToString (v : value) : completion string :=
  match v with
  | Undefined => Normal "undefined"
  | Null => Normal "null"
  | Bool b => Normal (if b then "true" else "false")
  | Num x => Normal (Number_toString x)
  | Str s => Normal s
  | Arr items =>
      (fix join (l : list value) : completion string :=
         match l with
         | [] => Normal ""
         | x :: rest =>
             cbind (match x with Undefined | Null => Normal "" | _ => ToString x end)
                   (fun s => match rest with
                             | [] => Normal s
                             | _ :: _ => cbind (join rest) (fun r => Normal (s +++ "," +++ r))
                             end)
         end) items
  | Obj fields => if has_own "toString" fields then Throw TypeError else Normal "[object Object]"
  end.

(** [String.prototype.repeat]. *)
Fixpoint repeat_string (s : string) (n : nat) : string :=
  match n with O => "" | S n' => s +++ repeat_string s n' end.

(** The line feed of the template literals. *)
Definition LF : string := String (ascii_of_nat 10) "".

(** [for (const x of v)] walks an array item by item and a string character
    by character; nothing else the script can hold is iterable. *)
Fixpoint characters (s : string) : list value :=
  match s with
  | EmptyString => []
  | String c rest => Str (String c "") :: characters rest
  end.

Definition iterate (v : value) : completion (list value) :=
  match v with
  | Arr items => Normal items
  | Str s => Normal (characters s)
  | _ => Throw TypeError
  end.

(** ** Tasks: the body of an async function *)

(** What a task asks of the outside world. *)
Inductive call : Type :=
| es_search (index : string)
| es_delete (index : string) (id : value)
| es_index (index : string) (body : value)
| slack_postMessage (channel text : string)
| setTimeout (ms : Z)
| console_log (line : string)
| console_error (err : exn).

Inductive task (A : Type) : Type :=
| Done (c : completion A)
| Call (c : call) (k : completion value -> task A).

Arguments Done {A} c.
Arguments Call {A} c k.

Fixpoint bind {A B} (t : task A) (f : A -> task B) : task B :=
  match t with
  | Done (Normal a) => f a
  | Done (Throw e) => Done (Throw e)
  | Call c k => Call c (fun r => bind (k r) f)
  end.

(** [try { t } catch (err) { h err }]: what the handler throws is not caught. *)
Fixpoint try_catch {A} (t : task A) (h : exn -> task A) : task A :=
  match t with
  | Done (Normal a) => Done (Normal a)
  | Done (Throw e) => h e
  | Call c k => Call c (fun r => try_catch (k r) h)
  end.

Definition ret {A} (a : A) : task A := Done (Normal a).
Definition throw {A} (e : exn) : task A := Done (Throw e).
Definition lift {A} (c : completion A) : task A := Done c.
Definition await (c : call) : task value := Call c (fun r => Done r).

Declare Scope task_scope.
Delimit Scope task_scope with task.
Notation "x <- t ;; k" := (bind t (fun x => k))
  (at level 61, t at next level, right associativity) : task_scope.
Notation "t ;; k" := (bind t (fun _ => k))
  (at level 61, right associativity) : task_scope.

Fixpoint for_each (items : list value) (body : value -> task unit) : task unit :=
  match items with
  | [] => ret tt
  | x :: rest => bind (body x) (fun _ => for_each rest body)
  end.

Definition for_of (v : value) (body : value -> task unit) : task unit :=
  bind (lift (iterate v)) (fun items => for_each items body).

(** ** Running a task *)

Definition event : Type := call * completion value.
Definition trace : Type := list event.

(** The environment answers the call that comes [n] calls from now. *)
Definition env : Type := nat -> call -> completion value.

Definition later (en : env) : env := fun n => en (S n).

(** A timer and the console cannot fail. *)
Definition infallible (c : call) : bool :=
  match c with
  | setTimeout _ | console_log _ | console_error _ => true
  | _ => false
  end.

Definition answer (en : env) (c : call) : completion value :=
  if infallible c then Normal Undefined else en O c.

Fixpoint run {A} (en : env) (t : task A) : trace * completion A :=
  match t with
  | Done c => ([], c)
  | Call c k =>
      let r := answer en c in
      let '(tr, out) := run (later en) (k r) in
      ((c, r) :: tr, out)
  end.

(** ** The script *)

Definition unsentSlacksIndex : string := "unsent-slacks".
Definition slackChannel : string := "#alerts-and-notifications".
Definition slackGracePeriod : Z := 5000.

(** The text of a post: a banner of four emoji, the subject in bold, the
    host, and the message. *)
Definition slack_text (emoji subject host message : string) : string :=
  repeat_string emoji 4 +++ LF +++ "*" +++ subject +++ "*" +++ LF +++ host
    +++ LF +++ LF +++ message.

(** [`posted ${message.length} chars to Slack`] *)
Definition posted_line (message : value) : completion string :=
  cbind (get message "length") (fun len =>
  cbind (ToString len) (fun n =>
  Normal ("posted " +++ n +++ " chars to Slack"))).

Definition non_OK : exn := Error "non-OK return code from Slack".

Section Script.

(** Two functions of the language runtime are taken as they come: [JSON.parse]
    and the conversion of a string to a number. *)
Variable JSON_parse : value -> completion value.
Variable StringToNumber : string -> float.

(** ToNumber.  An array or object goes through its string. *)
Definition ToNumber (v : value) : completion float :=
  match v with
  | Undefined => Normal nan
  | Null => Normal zero
  | Bool b => Normal (if b then one else zero)
  | Num x => Normal x
  | Str s => Normal (StringToNumber s)
  | Arr _ | Obj _ => cbind (ToString v) (fun s => Normal (StringToNumber s))
  end.

(** [a * b] *)
Definition multiply (a b : value) : completion float :=
  cbind (ToNumber a) (fun x => cbind (ToNumber b) (fun y => Normal (PrimFloat.mul x y))).

(** *** Draining the unsent messages (lines 21 to 51) *)

Definition failed_banner : string :=
  "<< This message failed to send in a timely manner >>".

(** The body of the loop over the hits of [unsent-slacks]. *)
Definition resend (hit : value) : task unit :=
  (id <- lift (get hit "_id") ;;
   id_text <- lift (ToString id) ;;
   await (console_log ("Found unsent message " +++ id_text +++ ". Attempting to send")) ;;
   host <- lift (get_path hit ["_source"; "host"]) ;;
   subject <- lift (get_path hit ["_source"; "subject"]) ;;
   stored <- lift (get_path hit ["_source"; "message"]) ;;
   stored_text <- lift (ToString stored) ;;
   let message := failed_banner +++ LF +++ LF +++ stored_text in
   subject_text <- lift (ToString subject) ;;
   host_text <- lift (ToString host) ;;
   slackResult <- await (slack_postMessage slackChannel
                    (slack_text ":hourglass_flowing_sand: " subject_text host_text message)) ;;
   ok <- lift (get slackResult "ok") ;;
   (if truthy ok
    then line <- lift (posted_line (Str message)) ;; await (console_log line)
    else throw non_OK) ;;
   await (es_delete unsentSlacksIndex id) ;;
   await (setTimeout slackGracePeriod) ;;
   ret tt)%task.

Definition drainer : task unit :=
  (result <- await (es_search unsentSlacksIndex) ;;
   hits <- lift (get_path result ["hits"; "hits"]) ;;
   for_of hits resend)%task.

(** *** The alert types (lines 55 to 100) *)

Record AlertType : Type := {
  esIndex : string;
  getSubjectFunc : value -> completion value;
  getMessageFunc : value -> completion value
}.

(** [`${a} is ${b}`] *)
Definition is_template (a b : value) : completion value :=
  cbind (ToString a) (fun x => cbind (ToString b) (fun y => Normal (Str (x +++ " is " +++ y)))).

(** [`${pct * 100}%`] *)
Definition percent_template (pct : value) : completion value :=
  cbind (multiply pct (Num 100%float)) (fun x => Normal (Str (Number_toString x +++ "%"))).

Definition log_errors : AlertType := {|
  esIndex := "alerts-log-errors";
  getSubjectFunc := fun alert => get_path alert ["_source"; "log"; "file"; "path"];
  getMessageFunc := fun alert => get_path alert ["_source"; "message"]
|}.

Definition disk_space : AlertType := {|
  esIndex := "alerts-disk-space";
  getSubjectFunc := fun alert =>
    cbind (get_path alert ["_source"; "system"; "filesystem"; "mount_point"]) (fun mount_point =>
    cbind (ToString mount_point) (fun s => Normal (Str ("High disk usage on " +++ s))));
  getMessageFunc := fun alert =>
    cbind (get_path alert ["_source"; "system"; "filesystem"; "used"; "pct"]) percent_template
|}.

Definition memory_usage : AlertType := {|
  esIndex := "alerts-memory-usage";
  getSubjectFunc := fun alert => Normal (Str "High memory usage");
  getMessageFunc := fun alert =>
    cbind (get_path alert ["_source"; "system"; "memory"; "actual"; "used"; "pct"]) percent_template
|}.

Definition systemd : AlertType := {|
  esIndex := "alerts-systemd";
  getSubjectFunc := fun alert => Normal (Str "Down systemd service");
  getMessageFunc := fun alert =>
    cbind (get_path alert ["_source"; "system"; "service"; "name"]) (fun name =>
    cbind (get_path alert ["_source"; "system"; "service"; "state"]) (fun state =>
    is_template name state))
|}.

Definition docker_unhealthy_container : AlertType := {|
  esIndex := "alerts-docker-unhealthy-container";
  getSubjectFunc := fun alert => Normal (Str "Unhealthy docker container");
  getMessageFunc := fun alert =>
    cbind (get_path alert ["_source"; "container"; "name"]) (fun name =>
    cbind (get_path alert ["_source"; "docker"; "container"; "status"]) (fun status =>
    is_template name status))
|}.

Definition alertTypes : list AlertType :=
  [log_errors; disk_space; memory_usage; systemd; docker_unhealthy_container].

(** *** Dispatching the alerts (lines 101 to 145) *)

(** What is stored in [unsent-slacks] for an alert that was not posted. *)
Definition unsent_body (host subject message : value) : value :=
  Obj [("host", host); ("subject", subject); ("message", message)].

(** The body of the inner loop, over the alerts of one hit. *)
Definition notify (alertType : AlertType) (alert : value) : task unit :=
  (host <- lift (get_path alert ["_source"; "host"]) ;;
   subject <- lift (getSubjectFunc alertType alert) ;;
   message <- lift (getMessageFunc alertType alert) ;;
   try_catch
     (subject_text <- lift (ToString subject) ;;
      host_text <- lift (ToString host) ;;
      message_text <- lift (ToString message) ;;
      slackResult <- await (slack_postMessage slackChannel
                       (slack_text ":anger: " subject_text host_text message_text)) ;;
      ok <- lift (get slackResult "ok") ;;
      (if truthy ok
       then line <- lift (posted_line message) ;; await (console_log line)
       else throw non_OK) ;;
      await (setTimeout slackGracePeriod) ;;
      ret tt)
     (fun err =>
        await (console_error err) ;;
        await (es_index unsentSlacksIndex (unsent_body host subject message)) ;;
        ret tt))%task.

(** The body of the outer loop, over the hits of the alert index. *)
Definition process_hit (alertType : AlertType) (hit : value) : task unit :=
  (id <- lift (get hit "_id") ;;
   alertContexts <- lift (get_path hit ["_source"; "alertContexts"]) ;;
   alerts <- lift (JSON_parse alertContexts) ;;
   for_of alerts (notify alertType) ;;
   await (es_delete (esIndex alertType) id) ;;
   ret tt)%task.

Definition dispatcher (alertType : AlertType) : task unit :=
  (result <- await (es_search (esIndex alertType)) ;;
   hits <- lift (get_path result ["hits"; "hits"]) ;;
   for_of hits (process_hit alertType))%task.

(** The tasks the script starts. *)
Definition tasks : list (task unit) := drainer :: map dispatcher alertTypes.

End Script.

(** ** Vocabulary of the statements *)

(** The environment as it stands after [n] calls. *)
Fixpoint shift (n : nat) (en : env) : env :=
  match n with
  | O => en
  | S n' => shift n' (later en)
  end.

(** A post is delivered when the call returns an answer whose [ok] is truthy;
    it fails when the call throws or the answer is not OK. *)
Definition delivered (r : completion value) : bool :=
  match r with
  | Normal v => match get v "ok" with Normal ok => truthy ok | Throw _ => false end
  | Throw _ => false
  end.

Definition is_post (ev : event) : bool :=
  match fst ev with slack_postMessage _ _ => true | _ => false end.

Definition is_delete (ev : event) : bool :=
  match fst ev with es_delete _ _ => true | _ => false end.

Definition is_index (ev : event) : bool :=
  match fst ev with es_index _ _ => true | _ => false end.

(** The event of a call that cannot fail. *)
Definition quiet (c : call) : event := (c, Normal Undefined).

(** What the inner loop of the dispatcher walks: the decoded [alertContexts]
    of a hit. *)
Definition decoded_alerts (JSON_parse : value -> completion value) (hit : value)
  : completion (list value) :=
  cbind (get_path hit ["_source"; "alertContexts"]) (fun text =>
  cbind (JSON_parse text) iterate).

(** The text the drainer posts for a hit of [unsent-slacks]. *)
Definition resend_text (hit : value) : completion string :=
  cbind (get_path hit ["_source"; "host"]) (fun host =>
  cbind (get_path hit ["_source"; "subject"]) (fun subject =>
  cbind (get_path hit ["_source"; "message"]) (fun stored =>
  cbind (ToString stored) (fun stored_text =>
  cbind (ToString subject) (fun subject_text =>
  cbind (ToString host) (fun host_text =>
  Normal (slack_text ":hourglass_flowing_sand: " subject_text host_text
            (failed_banner +++ LF +++ LF +++ stored_text)))))))).

(** The text the dispatcher posts for an alert. *)
Definition notify_text (host subject message : value) : completion string :=
  cbind (ToString subject) (fun subject_text =>
  cbind (ToString host) (fun host_text =>
  cbind (ToString message) (fun message_text =>
  Normal (slack_text ":anger: " subject_text host_text message_text)))).

(** ** Sample data *)

Definition OK : value := Obj [("ok", Bool true)].
Definition not_OK : value := Obj [("ok", Bool false)].
Definition NotFound : exn := ResponseError 404.

Definition search_result (hits : list value) : value :=
  Obj [("hits", Obj [("hits", Arr hits)])].

Definition document (id : string) (source : value) : value :=
  Obj [("_id", Str id); ("_source", source)].

(** A decoder that knows the listed texts and rejects every other input. *)
Definition decode_known (known : list (string * value)) (text : value) : completion value :=
  match text with
  | Str s => match assoc s known with Some v => Normal v | None => Throw SyntaxError end
  | _ => Throw SyntaxError
  end.

(** A string-to-number conversion for the samples, none of which converts a
    string. *)
Definition no_number : string -> float := fun _ => nan.

(** ** The ways a turn of each loop can go *)

(** The error a failed post leaves in the hands of the script: the one the
    call threw, the one reading [ok] threw, or the script's own. *)
Definition failure (r : completion value) : exn :=
  match r with
  | Throw e => e
  | Normal v => match get v "ok" with Throw e => e | Normal _ => non_OK end
  end.

Definition found_line (id_text : string) : event :=
  quiet (console_log ("Found unsent message " +++ id_text +++ ". Attempting to send")).

(** One turn of the drainer's loop, for one hit of [unsent-slacks]. *)
Inductive resend_outcome (hit : value) : trace -> completion unit -> Prop :=
| resend_no_id e :
    cbind (get hit "_id") ToString = Throw e ->
    resend_outcome hit [] (Throw e)
| resend_no_text id id_text e :
    get hit "_id" = Normal id -> ToString id = Normal id_text ->
    resend_text hit = Throw e ->
    resend_outcome hit [found_line id_text] (Throw e)
| resend_failed id id_text text r :
    get hit "_id" = Normal id -> ToString id = Normal id_text ->
    resend_text hit = Normal text ->
    delivered r = false ->
    resend_outcome hit
      [found_line id_text; (slack_postMessage slackChannel text, r)]
      (Throw (failure r))
| resend_not_deleted id id_text text r line e :
    get hit "_id" = Normal id -> ToString id = Normal id_text ->
    resend_text hit = Normal text ->
    delivered r = true ->
    resend_outcome hit
      [found_line id_text; (slack_postMessage slackChannel text, r);
       quiet (console_log line); (es_delete unsentSlacksIndex id, Throw e)]
      (Throw e)
| resend_done id id_text text r line v :
    get hit "_id" = Normal id -> ToString id = Normal id_text ->
    resend_text hit = Normal text ->
    delivered r = true ->
    resend_outcome hit
      [found_line id_text; (slack_postMessage slackChannel text, r);
       quiet (console_log line); (es_delete unsentSlacksIndex id, Normal v);
       quiet (setTimeout slackGracePeriod)]
      (Normal tt).

(** The three constants the dispatcher computes for an alert before it tries
    to post: host, subject and message. *)
Definition fields (alertType : AlertType) (alert : value)
  : completion (value * value * value) :=
  cbind (get_path alert ["_source"; "host"]) (fun host =>
  cbind (getSubjectFunc alertType alert) (fun subject =>
  cbind (getMessageFunc alertType alert) (fun message =>
  Normal (host, subject, message)))).

(** How the [try] block can end in the [catch]: the events it got to, and the
    error caught. *)
Inductive attempt_failed (host subject message : value) : trace -> exn -> Prop :=
| failed_text e :
    notify_text host subject message = Throw e ->
    attempt_failed host subject message [] e
| failed_post text r :
    notify_text host subject message = Normal text ->
    delivered r = false ->
    attempt_failed host subject message
      [(slack_postMessage slackChannel text, r)] (failure r)
| failed_log text r e :
    notify_text host subject message = Normal text ->
    delivered r = true ->
    posted_line message = Throw e ->
    attempt_failed host subject message
      [(slack_postMessage slackChannel text, r)] e.

(** One turn of the dispatcher's inner loop, for one alert. *)
Inductive notify_outcome (alertType : AlertType) (alert : value)
  : trace -> completion unit -> Prop :=
| notify_malformed e :
    fields alertType alert = Throw e ->
    notify_outcome alertType alert [] (Throw e)
| notify_posted host subject message text r line :
    fields alertType alert = Normal (host, subject, message) ->
    notify_text host subject message = Normal text ->
    delivered r = true ->
    posted_line message = Normal line ->
    notify_outcome alertType alert
      [(slack_postMessage slackChannel text, r); quiet (console_log line);
       quiet (setTimeout slackGracePeriod)]
      (Normal tt)
| notify_requeued host subject message tr e ri :
    fields alertType alert = Normal (host, subject, message) ->
    attempt_failed host subject message tr e ->
    notify_outcome alertType alert
      (tr ++ [quiet (console_error e);
              (es_index unsentSlacksIndex (unsent_body host subject message), ri)])
      (cbind ri (fun _ => Normal tt)).

(** The hits a search result holds, as both loops over hits read them. *)
Definition hits_of (result : value) : completion (list value) :=
  cbind (get_path result ["hits"; "hits"]) iterate.

(** ** Sample runs *)

(** An environment that gives each kind of call one answer. *)
Record answers : Type := {
  on_search : completion value;
  on_post : completion value;
  on_index : completion value;
  on_delete : completion value
}.

Definition always (a : answers) : env :=
  fun _ c =>
    match c with
    | es_search _ => on_search a
    | slack_postMessage _ _ => on_post a
    | es_index _ _ => on_index a
    | es_delete _ _ => on_delete a
    | _ => Normal Undefined
    end.

(** 0.92, that is the binary64 number nearest to it. *)
Definition pct_92 : float := 0x1.d70a3d70a3d71p-1%float.

(** A log alert that has no [message]. *)
Definition log_alert_without_message : value :=
  Obj [("_source",
        Obj [("host", Str "web1");
             ("log", Obj [("file", Obj [("path", Str "/var/log/app.log")])])])].

Definition log_alert : value :=
  Obj [("_source",
        Obj [("host", Str "web1");
             ("log", Obj [("file", Obj [("path", Str "/var/log/app.log")])]);
             ("message", Str "connection refused")])].

Definition disk_alert : value :=
  Obj [("_source",
        Obj [("host", Str "db1");
             ("system",
              Obj [("filesystem",
                    Obj [("mount_point", Str "/data");
                         ("used", Obj [("pct", Num pct_92)])])])])].

Definition memory_alert : value :=
  Obj [("_source",
        Obj [("host", Str "db1");
             ("system",
              Obj [("memory", Obj [("actual", Obj [("used", Obj [("pct", Num pct_92)])])])])])].

Definition systemd_alert : value :=
  Obj [("_source",
        Obj [("host", Str "web1");
             ("system", Obj [("service", Obj [("name", Str "nginx"); ("state", Str "failed")])])])].

Definition docker_alert : value :=
  Obj [("_source",
        Obj [("host", Str "web1");
             ("container", Obj [("name", Str "api")]);
             ("docker", Obj [("container", Obj [("status", Str "unhealthy")])])])].

(** The sample decoder knows four texts: an empty list, a list of one log
    alert without message, a list of one systemd alert, and a list of two
    systemd alerts. *)
Definition sample_decoder : value -> completion value :=
  decode_known
    [("none", Arr []);
     ("one-log-alert-without-message", Arr [log_alert_without_message]);
     ("one-systemd-alert", Arr [systemd_alert]);
     ("two-systemd-alerts", Arr [systemd_alert; systemd_alert])].

(** A hit of an alert index, with the text of its alerts. *)
Definition alert_hit (id text : string) : value :=
  document id (Obj [("alertContexts", Str text)]).

(** A hit of [unsent-slacks]. *)
Definition unsent_hit (id : string) (host subject message : value) : value :=
  document id (unsent_body host subject message).

Definition nginx_unsent : value :=
  unsent_hit "u1" (Str "web1") (Str "Down systemd service") (Str "nginx is failed").

Definition api_unsent : value :=
  unsent_hit "u2" (Str "web1") (Str "Unhealthy docker container") (Str "api is unhealthy").

(** Every call succeeds and every post is delivered. *)
Definition all_well (hits : list value) : answers := {|
  on_search := Normal (search_result hits);
  on_post := Normal OK;
  on_index := Normal Undefined;
  on_delete := Normal Undefined
|}.

(** Slack answers every post with [{ok: false}]. *)
Definition posts_rejected (hits : list value) : answers := {|
  on_search := Normal (search_result hits);
  on_post := Normal not_OK;
  on_index := Normal Undefined;
  on_delete := Normal Undefined
|}.

(** Slack rejects every post and the store refuses every insert. *)
Definition inserts_fail (hits : list value) : answers := {|
  on_search := Normal (search_result hits);
  on_post := Normal not_OK;
  on_index := Throw ConnectionError;
  on_delete := Normal Undefined
|}.

(** Every delete finds its document gone. *)
Definition deletes_not_found (hits : list value) : answers := {|
  on_search := Normal (search_result hits);
  on_post := Normal OK;
  on_index := Normal Undefined;
  on_delete := Throw NotFound
|}.

(** The texts posted for the samples. *)
Definition nginx_resend_text : string :=
  slack_text ":hourglass_flowing_sand: " "Down systemd service" "web1"
    (failed_banner +++ LF +++ LF +++ "nginx is failed").

Definition nginx_alert_text : string :=
  slack_text ":anger: " "Down systemd service" "web1" "nginx is failed".

Definition messageless_text : string :=
  slack_text ":anger: " "/var/log/app.log" "web1" "undefined".

(** ** Counting the events of a trace *)

Definition count (p : event -> bool) (tr : trace) : nat := List.length (filter p tr).

Definition is_delivered_post (ev : event) : bool := is_post ev && delivered (snd ev).

(** The ids of the documents whose delete returned, in the order of the run. *)
Definition deleted_ids (tr : trace) : list value :=
  flat_map (fun ev : event =>
              match ev with
              | (es_delete _ id, Normal _) => [id]
              | _ => []
              end) tr.

(** The texts of the posts that were delivered, in the order of the run. *)
Definition delivered_texts (tr : trace) : list string :=
  flat_map (fun ev : event =>
              match ev with
              | (slack_postMessage _ text, r) => if delivered r then [text] else []
              | _ => []
              end) tr.

(** The four alert types whose message is a template literal. *)
Definition templated (StringToNumber : string -> float) : list AlertType :=
  [disk_space StringToNumber; memory_usage StringToNumber; systemd;
   docker_unhealthy_container].

(** The traces of the turns of a loop, one after the other. *)
Definition turns (blocks : list trace) : trace := List.concat blocks.

(** An alert type is loggable when the line for the console can be built
    from every message it returns. *)
Definition loggable (alertType : AlertType) : Prop :=
  forall alert host subject message,
    fields alertType alert = Normal (host, subject, message) ->
    exists line, posted_line message = Normal line.

(** ** More sample data *)

(** An object that has no string: it has an own [toString] that is not a
    function. *)
Definition unprintable : value := Obj [("toString", Str "x")].

Definition log_alert_with_unprintable_host : value :=
  Obj [("_source",
        Obj [("host", unprintable);
             ("log", Obj [("file", Obj [("path", Str "/var/log/app.log")])]);
             ("message", Str "connection refused")])].

(** A second decoder: a systemd alert followed by a log alert, which the
    systemd formatter cannot read. *)
Definition mixed_decoder : value -> completion value :=
  decode_known [("systemd-then-log", Arr [systemd_alert; log_alert])].

(** An entry of [unsent-slacks] without a [_source]. *)
Definition sourceless_unsent : value := Obj [("_id", Str "u0")].

(** The turn of the dispatcher for the sample systemd alert when Slack
    answers OK, and the turn of the drainer for the first sample entry when
    every call succeeds. *)
Definition nginx_posted : trace :=
  [(slack_postMessage slackChannel nginx_alert_text, Normal OK);
   quiet (console_log "posted 15 chars to Slack");
   quiet (setTimeout 5000)].

Definition nginx_resent : trace :=
  [found_line "u1";
   (slack_postMessage slackChannel nginx_resend_text, Normal OK);
   quiet (console_log "posted 69 chars to Slack");
   (es_delete unsentSlacksIndex (Str "u1"), Normal Undefined);
   quiet (setTimeout 5000)].

(** Two sample runs in which every call succeeds: the drainer over the two
    sample entries, and the turn of a record that holds two systemd alerts. *)
Definition calm_drain : trace * completion unit :=
  run (always (all_well [nginx_unsent; api_unsent])) drainer.

Definition calm_record : trace * completion unit :=
  run (always (all_well [alert_hit "a1" "two-systemd-alerts"]))
      (process_hit sample_decoder systemd (alert_hit "a1" "two-systemd-alerts")).

(** * Proofs *)

(** ** Running binds and loops *)

(** Every way to cut a list that is written out. *)
Ltac cuts H :=
  match type of H with
  | ?pre ++ _ :: _ = _ =>
      destruct pre as [|? pre]; cbn [app] in H;
      [ first [discriminate H | injection H as H ?]
      | first [discriminate H | injection H as ? H; cuts H] ]
  end.


Ltac same_events :=
  repeat match goal with
         | Hev : (_, _) = (_, _) |- _ => injection Hev; clear Hev; intros; subst
         end.



Lemma shift_later n en : shift n (later en) = later (shift n en).
Proof. revert en. induction n as [|n IH]; intro en; simpl; [reflexivity | apply IH]. Qed.

Lemma shift_add n m en : shift (n + m) en = shift m (shift n en).
Proof. revert en. induction n as [|n IH]; intro en; simpl; [reflexivity | apply IH]. Qed.

Lemma run_bind A B (t : task A) (f : A -> task B) en :
  run en (bind t f) =
  match run en t with
  | (tr, Normal a) => let '(tr', out) := run (shift (List.length tr) en) (f a) in (tr ++ tr', out)
  | (tr, Throw e) => (tr, Throw e)
  end.
Proof.
  revert en. induction t as [c | c k IH]; intro en.
  - destruct c as [a | e]; simpl; [destruct (run en (f a)) |]; reflexivity.
  - simpl. rewrite IH. destruct (run (later en) (k (answer en c))) as [tr [a | e]]; simpl.
    + destruct (run (shift (List.length tr) (later en)) (f a)); reflexivity.
    + reflexivity.
Qed.

(** A run of a loop, cut at one of its events: the event belongs to the turn
    of one item, and what follows that turn is the run of the loop over the
    items that remain. *)
Lemma run_for_each_cut body items : forall en tr out pre ev post,
  run en (for_each items body) = (tr, out) ->
  tr = pre ++ ev :: post ->
  exists before x after pre0 pre1 post1 out_x,
    items = before ++ x :: after /\
    run en (for_each before body) = (pre0, Normal tt) /\
    run (shift (List.length pre0) en) (body x) = (pre1 ++ ev :: post1, out_x) /\
    pre = pre0 ++ pre1 /\
    match out_x with
    | Normal _ =>
        exists post0, post = post1 ++ post0 /\
          run (shift (List.length (pre ++ ev :: post1)) en) (for_each after body) = (post0, out)
    | Throw e => post = post1 /\ out = Throw e
    end.
Proof.
  induction items as [|x rest IH]; intros en tr out pre ev post Hrun Htr.
  - simpl in Hrun. inversion Hrun; subst. destruct pre; discriminate.
  - simpl in Hrun. rewrite run_bind in Hrun.
    destruct (run en (body x)) as [trx [[] | e]] eqn:Hx.
    + destruct (run (shift (List.length trx) en) (for_each rest body)) as [tr' out'] eqn:Hrest.
      injection Hrun as Hcat Hout. subst out'. rewrite Htr in Hcat. clear Htr tr.
      rename Hcat into Htr.
      (* is the event in the turn of x or later? *)
      destruct (le_lt_dec (List.length trx) (List.length pre)) as [Hle | Hlt].
      * (* later *)
        assert (exists pre', pre = trx ++ pre' /\ tr' = pre' ++ ev :: post) as [pre' [-> ->]].
        { clear - Htr Hle. revert pre Htr Hle. induction trx as [|a trx IHt]; intros pre Htr Hle.
          - exists pre. split; [reflexivity | exact Htr].
          - destruct pre as [|b pre]; simpl in Hle; [lia |].
            simpl in Htr. inversion Htr; subst.
            destruct (IHt pre H1 ltac:(lia)) as [pre' [-> ->]].
            exists pre'. split; reflexivity. }
        destruct (IH _ _ _ _ _ _ Hrest eq_refl)
          as (before & y & after & pre0 & pre1 & post1 & out_y & Hi & Hb & Hy & Hp & Ho).
        exists (x :: before), y, after, (trx ++ pre0), pre1, post1, out_y.
        split; [subst; reflexivity |].
        split.
        { simpl. rewrite run_bind, Hx, Hb. reflexivity. }
        split.
        { rewrite length_app, shift_add. exact Hy. }
        split; [subst; rewrite app_assoc; reflexivity |].
        destruct out_y.
        -- destruct Ho as [post0 [Hpost Hafter]]. exists post0. split; [exact Hpost |].
           rewrite <- Hafter. subst pre'.
           rewrite <- app_assoc. rewrite (length_app trx), shift_add. reflexivity.
        -- exact Ho.
      * (* in the turn of x *)
        assert (exists post1, trx = pre ++ ev :: post1 /\ post = post1 ++ tr') as [post1 [-> ->]].
        { clear - Htr Hlt. revert trx Htr Hlt. induction pre as [|b pre IHp]; intros trx Htr Hlt.
          - destruct trx as [|a trx]; simpl in Hlt; [lia |].
            simpl in Htr. inversion Htr; subst. exists trx. split; reflexivity.
          - destruct trx as [|a trx]; simpl in Hlt; [lia |].
            simpl in Htr. inversion Htr; subst.
            destruct (IHp trx H1 ltac:(lia)) as [post1 [-> ->]].
            exists post1. split; reflexivity. }
        exists [], x, rest, [], pre, post1, (Normal tt).
        repeat split; try reflexivity; try exact Hx.
        exists tr'. split; [reflexivity | exact Hrest].
    + injection Hrun as Hcat Hout. subst out trx.
      exists [], x, rest, [], pre, post, (Throw e).
      subst tr. repeat split; try reflexivity. exact Hx.
Qed.


Lemma run_for_each_app body l1 l2 : forall en,
  run en (for_each (l1 ++ l2) body) =
  match run en (for_each l1 body) with
  | (tr, Normal _) =>
      let '(tr', out) := run (shift (List.length tr) en) (for_each l2 body) in (tr ++ tr', out)
  | (tr, Throw e) => (tr, Throw e)
  end.
Proof.
  induction l1 as [|x l1 IH]; intro en.
  - cbn [app for_each ret run List.length shift].
    destruct (run en (for_each l2 body)). reflexivity.
  - cbn [app for_each]. rewrite !run_bind.
    destruct (run en (body x)) as [trx [[] | e]]; [| reflexivity].
    rewrite IH.
    destruct (run (shift (List.length trx) en) (for_each l1 body)) as [tr1 [[] | e]]; [| reflexivity].
    rewrite length_app, shift_add.
    destruct (run (shift (List.length tr1) (shift (List.length trx) en)) (for_each l2 body)).
    rewrite app_assoc. reflexivity.
Qed.


(** ** Every turn goes one of the listed ways *)

Ltac unfold_task H :=
  cbn [run bind try_catch lift await ret throw for_each answer infallible fst snd] in H.

Ltac crunch H :=
  repeat (unfold_task H;
          match type of H with
          | context [match ?c with Normal _ => _ | Throw _ => _ end] =>
              first [is_var c; destruct c | let E := fresh "E" in destruct c eqn:E]
          | context [if ?b then _ else _] =>
              first [is_var b; destruct b | let E := fresh "E" in destruct b eqn:E]
          end).

Ltac use_eqs :=
  repeat match goal with
         | E : ?c = _ |- context [?c] => rewrite E
         end.

Lemma posted_line_Str s : exists line, posted_line (Str s) = Normal line.
Proof. unfold posted_line. cbn [get cbind String.eqb Ascii.eqb Bool.eqb ToString]. eexists. reflexivity. Qed.

Lemma delivered_ok r v ok :
  r = Normal v -> get v "ok" = Normal ok -> delivered r = truthy ok.
Proof. intros -> H. unfold delivered. rewrite H. reflexivity. Qed.

Lemma resend_sound en hit tr out :
  run en (resend hit) = (tr, out) -> resend_outcome hit tr out.
Proof.
  intro H. unfold resend in H. crunch H; unfold_task H;
    injection H as <- <-.
  all: try (apply resend_no_id; unfold cbind; use_eqs; reflexivity).
  all: try (eapply resend_no_text; [eassumption | eassumption | unfold resend_text, cbind; use_eqs; reflexivity]).
  all: try match goal with
       | E : posted_line (Str _) = Throw _ |- _ =>
           exfalso; destruct (posted_line_Str (failed_banner +++ LF +++ LF +++ a4)) as [l Hl]; congruence
       end.
  all: try (eapply resend_done; try eassumption;
            [unfold resend_text, cbind; use_eqs; reflexivity
            |erewrite delivered_ok by eauto; assumption]).
  all: try (eapply resend_not_deleted; try eassumption;
            [unfold resend_text, cbind; use_eqs; reflexivity
            |erewrite delivered_ok by eauto; assumption]).
  all: match goal with
       | |- resend_outcome _ [_; (_, ?r)] (Throw ?e) =>
           replace e with (failure r) by (unfold failure; use_eqs; reflexivity);
           eapply resend_failed; try eassumption;
           [unfold resend_text, cbind; use_eqs; reflexivity
           |unfold delivered; use_eqs; auto]
       end.
Qed.

Lemma notify_sound en alertType alert tr out :
  run en (notify alertType alert) = (tr, out) -> notify_outcome alertType alert tr out.
Proof.
  intro H. unfold notify in H. crunch H; unfold_task H; injection H as <- <-.
  all: try (apply notify_malformed; unfold fields, cbind; use_eqs; reflexivity).
  all: try (eapply notify_posted;
            [unfold fields, cbind; use_eqs; reflexivity
            |unfold notify_text, cbind; use_eqs; reflexivity
            |unfold delivered; use_eqs; auto
            |eassumption]).
  all: match goal with
       | |- notify_outcome ?t ?al [?p; (console_error ?e, _); (es_index _ (unsent_body ?h ?s ?m), ?ri)] _ =>
           refine (@notify_requeued t al h s m [p] e ri _ _)
       | |- notify_outcome ?t ?al [(console_error ?e, _); (es_index _ (unsent_body ?h ?s ?m), ?ri)] _ =>
           refine (@notify_requeued t al h s m [] e ri _ _)
       end.
  all: try (unfold fields, cbind; use_eqs; reflexivity).
  all: try (apply failed_text; unfold notify_text, cbind; use_eqs; reflexivity).
  all: try (eapply failed_log;
            [unfold notify_text, cbind; use_eqs; reflexivity
            |unfold delivered; use_eqs; auto
            |eassumption]).
  all: match goal with
       | |- attempt_failed _ _ _ [(_, ?r)] ?e =>
           replace e with (failure r) by (unfold failure; use_eqs; reflexivity);
           apply failed_post;
           [unfold notify_text, cbind; use_eqs; reflexivity
           |unfold delivered; use_eqs; auto]
       end.
Qed.


Ltac outcome_cases H Hcut :=
  inversion H as [ e0 He | hid hid_text e0 Hid Hidt Htext
                 | hid hid_text text0 r0 Hid Hidt Htext Hdel
                 | hid hid_text text0 r0 line e0 Hid Hidt Htext Hdel
                 | hid hid_text text0 r0 line v0 Hid Hidt Htext Hdel ];
  match goal with
  | Hc : _ = _ ++ _ :: _ |- _ => symmetry in Hc; cuts Hc
  end.


(** ** Where an event of a run comes from *)

Lemma run_for_of body v en tr out :
  run en (for_of v body) = (tr, out) ->
  match iterate v with
  | Normal items => run en (for_each items body) = (tr, out)
  | Throw e => tr = [] /\ out = Throw e
  end.
Proof.
  unfold for_of. intro H. unfold_task H. destruct (iterate v).
  - exact H.
  - unfold_task H. injection H as <- <-. split; reflexivity.
Qed.

(** An event of a drainer run is the search, or lies in the turn of one hit. *)
Lemma drainer_cut en pre ev post out :
  run en drainer = (pre ++ ev :: post, out) ->
  pre = [] /\ ev = (es_search unsentSlacksIndex, en O (es_search unsentSlacksIndex))
  \/
  exists result hits hit pre0 pre1 post1 out_h,
    en O (es_search unsentSlacksIndex) = Normal result /\
    hits_of result = Normal hits /\
    In hit hits /\
    resend_outcome hit (pre1 ++ ev :: post1) out_h /\
    pre = (es_search unsentSlacksIndex, Normal result) :: pre0 ++ pre1 /\
    match out_h with
    | Normal _ => exists post0, post = post1 ++ post0
    | Throw e => post = post1 /\ out = Throw e
    end.
Proof.
  intro H. unfold drainer in H. unfold_task H.
  destruct (en O (es_search unsentSlacksIndex)) as [result | e] eqn:Hs.
  - unfold_task H.
    destruct (get_path result ["hits"; "hits"]) as [v | e] eqn:Hv.
    + destruct (run (later en) (for_of v resend)) as [tr' out'] eqn:Hloop.
      injection H as Htr ->.
      destruct pre as [|p pre]; simpl in Htr; injection Htr as Hp Htr.
      * left. split; congruence.
      * right. subst tr' p.
        apply run_for_of in Hloop.
        destruct (iterate v) as [items | e] eqn:Hi.
        -- destruct (@run_for_each_cut _ _ _ _ _ _ _ _ Hloop eq_refl)
             as (before & x & after & pre0 & pre1 & post1 & out_x & Hit & _ & Hx & Hp & Ho).
           exists result, items, x, pre0, pre1, post1, out_x.
           split; [reflexivity |].
           split; [unfold hits_of, cbind; rewrite Hv; exact Hi |].
           split; [subst items; apply in_elt |].
           split; [eapply resend_sound; exact Hx |].
           split; [subst pre; reflexivity |].
           destruct out_x; [destruct Ho as [post0 [Ho _]]; exists post0; exact Ho | exact Ho].
        -- destruct Hloop as [Hnil _]. destruct pre; discriminate.
    + unfold_task H. injection H as Htr _.
      destruct pre as [|p pre]; simpl in Htr; injection Htr as Hp Htr.
      * left. split; congruence.
      * destruct pre; discriminate.
  - unfold_task H. injection H as Htr _.
    destruct pre as [|p pre]; simpl in Htr; injection Htr as Hp Htr.
    + left. split; congruence.
    + destruct pre; discriminate.
Qed.

Section DispatcherEvents.
Variable JSON_parse : value -> completion value.
Variable alertType : AlertType.

(** A list cut in two places. *)
Lemma app_cut (A : Type) (l1 l2 pre post : list A) (x : A) :
  l1 ++ l2 = pre ++ x :: post ->
  (exists mid, l1 = pre ++ x :: mid /\ post = mid ++ l2) \/
  (exists mid, pre = l1 ++ mid /\ l2 = mid ++ x :: post).
Proof.
  revert pre. induction l1 as [|a l1 IH]; intros pre H.
  - right. exists pre. split; [reflexivity | exact H].
  - destruct pre as [|b pre]; simpl in H; injection H as <- H.
    + left. exists l1. split; [reflexivity | symmetry; exact H].
    + destruct (IH _ H) as [[mid [-> ->]] | [mid [-> ->]]].
      * left. exists mid. split; reflexivity.
      * right. exists mid. split; reflexivity.
Qed.

(** An event of the turn of one hit lies in the turn of one of its alerts, or
    is the delete that closes the turn. *)
Lemma process_hit_cut en hit pre ev post out :
  run en (process_hit JSON_parse alertType hit) = (pre ++ ev :: post, out) ->
  exists id alerts,
    get hit "_id" = Normal id /\
    decoded_alerts JSON_parse hit = Normal alerts /\
    ((exists before alert after pre0 pre1 post1 out_a,
        alerts = before ++ alert :: after /\
        run en (for_each before (notify alertType)) = (pre0, Normal tt) /\
        notify_outcome alertType alert (pre1 ++ ev :: post1) out_a /\
        pre = pre0 ++ pre1 /\
        match out_a with
        | Throw e => post = post1 /\ out = Throw e
        | Normal _ =>
            exists en' tr_after out_after,
              run en' (for_each after (notify alertType)) = (tr_after, out_after) /\
              match out_after with
              | Throw e => post = post1 ++ tr_after /\ out = Throw e
              | Normal _ =>
                  exists rd,
                    post = post1 ++ tr_after ++ [(es_delete (esIndex alertType) id, rd)] /\
                    out = cbind rd (fun _ => Normal tt)
              end
        end)
     \/
     (exists rd,
        ev = (es_delete (esIndex alertType) id, rd) /\
        post = [] /\
        out = cbind rd (fun _ => Normal tt) /\
        run en (for_each alerts (notify alertType)) = (pre, Normal tt))).
Proof.
  intro H. unfold process_hit in H. unfold_task H.
  destruct (get hit "_id") as [id | e] eqn:Hid;
    [| unfold_task H; injection H as Htr _; destruct pre; discriminate].
  destruct (get_path hit ["_source"; "alertContexts"]) as [text | e] eqn:Htext;
    [| unfold_task H; injection H as Htr _; destruct pre; discriminate].
  destruct (JSON_parse text) as [v | e] eqn:Hparse;
    [| unfold_task H; injection H as Htr _; destruct pre; discriminate].
  rewrite run_bind in H.
  destruct (run en (for_of v (notify alertType))) as [trl outl] eqn:Hloop.
  apply run_for_of in Hloop.
  destruct (iterate v) as [alerts | e] eqn:Hit.
  2: { destruct Hloop as [-> ->]. injection H as Htr _. destruct pre; discriminate. }
  exists id, alerts. split; [reflexivity |].
  split; [unfold decoded_alerts, cbind; rewrite Htext, Hparse; exact Hit |].
  destruct outl as [[] | e].
  - (* the loop over the alerts completed *)
    unfold_task H.
    set (rd := shift (List.length trl) en O (es_delete (esIndex alertType) id)) in H.
    assert (Hout : out = cbind rd (fun _ => Normal tt)) by (destruct rd; injection H as _ <-; reflexivity).
    assert (Htr : trl ++ [(es_delete (esIndex alertType) id, rd)] = pre ++ ev :: post)
      by (destruct rd; injection H as <- _; reflexivity).
    clear H.
    destruct (app_cut _ _ _ _ _ Htr) as [[mid [Hl Hp]] | [mid [Hp Hl]]].
    + left. subst trl.
      destruct (@run_for_each_cut _ _ _ _ _ _ _ _ Hloop eq_refl)
        as (before & x & after & pre0 & pre1 & post1 & out_x & Hal & Hb & Hx & Hpre & Ho).
      exists before, x, after, pre0, pre1, post1, out_x.
      split; [exact Hal |].
      split; [exact Hb |].
      split; [eapply notify_sound; exact Hx |].
      split; [exact Hpre |].
      destruct out_x as [[] | e]; [| destruct Ho; discriminate].
      destruct Ho as [post0 [-> Hafter]].
      eexists _, post0, (Normal tt). split; [exact Hafter |].
      exists rd. split; [rewrite Hp, <- app_assoc; reflexivity | exact Hout].
    + right. destruct mid as [|m mid].
      * simpl in Hl. injection Hl as <- <-. exists rd.
        rewrite app_nil_r in Hp. subst pre. repeat split; assumption.
      * simpl in Hl. injection Hl as _ Hl. destruct mid; discriminate.
  - (* the loop stopped on an alert *)
    injection H as Htr <-. subst trl.
    left.
    destruct (@run_for_each_cut _ _ _ _ _ _ _ _ Hloop eq_refl)
      as (before & x & after & pre0 & pre1 & post1 & out_x & Hal & Hb & Hx & Hpre & Ho).
    exists before, x, after, pre0, pre1, post1, out_x.
    split; [exact Hal |].
    split; [exact Hb |].
    split; [eapply notify_sound; exact Hx |].
    split; [exact Hpre |].
    destruct out_x as [[] | e'].
    + destruct Ho as [post0 [-> Hafter]].
      eexists _, post0, (Throw e). split; [exact Hafter |]. split; reflexivity.
    + exact Ho.
Qed.

(** An event of a dispatcher run is the search, or lies in the turn of one
    hit. *)
Lemma dispatcher_cut en pre ev post out :
  run en (dispatcher JSON_parse alertType) = (pre ++ ev :: post, out) ->
  pre = [] /\ ev = (es_search (esIndex alertType), en O (es_search (esIndex alertType)))
  \/
  exists result hits before hit after en' pre0 pre1 post1 out_h,
    en O (es_search (esIndex alertType)) = Normal result /\
    hits_of result = Normal hits /\
    hits = before ++ hit :: after /\
    run (later en) (for_each before (process_hit JSON_parse alertType)) = (pre0, Normal tt) /\
    run en' (process_hit JSON_parse alertType hit) = (pre1 ++ ev :: post1, out_h) /\
    pre = (es_search (esIndex alertType), Normal result) :: pre0 ++ pre1 /\
    match out_h with
    | Normal _ =>
        exists en'' post0,
          post = post1 ++ post0 /\
          run en'' (for_each after (process_hit JSON_parse alertType)) = (post0, out)
    | Throw e => post = post1 /\ out = Throw e
    end.
Proof.
  intro H. unfold dispatcher in H. unfold_task H.
  destruct (en O (es_search (esIndex alertType))) as [result | e] eqn:Hs.
  - unfold_task H.
    destruct (get_path result ["hits"; "hits"]) as [v | e] eqn:Hv.
    + destruct (run (later en) (for_of v (process_hit JSON_parse alertType))) as [tr' out'] eqn:Hloop.
      injection H as Htr ->.
      destruct pre as [|p pre]; simpl in Htr; injection Htr as Hp Htr.
      * left. split; congruence.
      * right. subst tr' p.
        apply run_for_of in Hloop.
        destruct (iterate v) as [items | e] eqn:Hi.
        -- destruct (@run_for_each_cut _ _ _ _ _ _ _ _ Hloop eq_refl)
             as (before & x & after & pre0 & pre1 & post1 & out_x & Hit & Hb & Hx & Hp & Ho).
           exists result, items, before, x, after.
           eexists _, pre0, pre1, post1, out_x.
           split; [reflexivity |].
           split; [unfold hits_of, cbind; rewrite Hv; exact Hi |].
           split; [exact Hit |].
           split; [exact Hb |].
           split; [exact Hx |].
           split; [subst pre; reflexivity |].
           destruct out_x; [| exact Ho].
           destruct Ho as [post0 [Ho Hafter]]. eexists _, post0. split; [exact Ho | exact Hafter].
        -- destruct Hloop as [Hnil _]. destruct pre; discriminate.
    + unfold_task H. injection H as Htr _.
      destruct pre as [|p pre]; simpl in Htr; injection Htr as Hp Htr.
      * left. split; congruence.
      * destruct pre; discriminate.
  - unfold_task H. injection H as Htr _.
    destruct pre as [|p pre]; simpl in Htr; injection Htr as Hp Htr.
    + left. split; congruence.
    + destruct pre; discriminate.
Qed.

End DispatcherEvents.

Section DispatcherPosts.
Variable JSON_parse : value -> completion value.
Variable alertType : AlertType.

(** A turn of the inner loop, spelled out event by event. *)
Lemma notify_cases alert tr out :
  notify_outcome alertType alert tr out ->
  (exists e, fields alertType alert = Throw e /\ tr = [] /\ out = Throw e) \/
  exists host subject message,
    fields alertType alert = Normal (host, subject, message) /\
    ((exists text r line,
        notify_text host subject message = Normal text /\
        delivered r = true /\
        posted_line message = Normal line /\
        tr = [(slack_postMessage slackChannel text, r); quiet (console_log line);
              quiet (setTimeout slackGracePeriod)] /\
        out = Normal tt)
     \/
     (exists before e ri,
        attempt_failed host subject message before e /\
        tr = before ++ [quiet (console_error e);
                        (es_index unsentSlacksIndex (unsent_body host subject message), ri)] /\
        out = cbind ri (fun _ => Normal tt))).
Proof.
  intros [e He | host subject message text r line Hf Ht Hd Hl | host subject message before e ri Hf Ha].
  - left. exists e. repeat split; assumption.
  - right. exists host, subject, message. split; [assumption |].
    left. exists text, r, line. repeat split; assumption.
  - right. exists host, subject, message. split; [assumption |].
    right. exists before, e, ri. repeat split; assumption.
Qed.

(** A post in a dispatcher run opens the turn of one alert of one hit. *)
Lemma dispatcher_post_cut en pre channel text r post out :
  run en (dispatcher JSON_parse alertType) = (pre ++ (slack_postMessage channel text, r) :: post, out) ->
  exists hit id before alert after post1 out_a,
    get hit "_id" = Normal id /\
    decoded_alerts JSON_parse hit = Normal (before ++ alert :: after) /\
    notify_outcome alertType alert ((slack_postMessage channel text, r) :: post1) out_a /\
    match out_a with
    | Throw e => post = post1 /\ out = Throw e
    | Normal _ =>
        exists en' tr_after out_after,
          run en' (for_each after (notify alertType)) = (tr_after, out_after) /\
          match out_after with
          | Throw e => post = post1 ++ tr_after /\ out = Throw e
          | Normal _ =>
              exists rd rest,
                post = post1 ++ tr_after ++ (es_delete (esIndex alertType) id, rd) :: rest
          end
    end.
Proof.
  intro H.
  apply dispatcher_cut in H. destruct H as [[_ Hev] | Hin]; [discriminate Hev |].
  destruct Hin as (result & hits & hbefore & hit & hafter & en' & pre0 & pre1 & post1 & out_h
                   & _ & _ & _ & _ & Hh & _ & Hpost).
  apply process_hit_cut in Hh. destruct Hh as (id & alerts & Hid & Hdec & [Hin | Hdel]).
  2: { destruct Hdel as (rd & Hev & _). discriminate Hev. }
  destruct Hin as (before & alert & after & pre0' & pre1' & post1' & out_a & Hal & _ & Ho & _ & Hcont).
  assert (Hfirst : pre1' = []).
  { destruct (notify_cases Ho) as [(e & _ & Htr & _) | (host & subject & message & _ & [Hok | Hko])].
    - destruct pre1'; discriminate.
    - destruct Hok as (t & r' & line & _ & _ & _ & Htr & _).
      unfold quiet in Htr. cuts Htr; try discriminate. reflexivity.
    - destruct Hko as (bef & e & ri & Ha & Htr & _).
      unfold quiet in Htr. destruct Ha; cbn [app] in Htr; cuts Htr; try discriminate; reflexivity. }
  subst pre1'. cbn [app] in Ho.
  exists hit, id, before, alert, after, post1', out_a.
  split; [exact Hid |]. split; [rewrite Hdec, Hal; reflexivity |]. split; [exact Ho |].
  destruct out_a as [[] | e].
  - destruct Hcont as (en'' & tr_after & out_after & Hafter & Hcont).
    exists en'', tr_after, out_after. split; [exact Hafter |].
    destruct out_after as [[] | e].
    + destruct Hcont as (rd & Hp1 & Hout). subst post1.
      destruct out_h as [[] | e].
      * destruct Hpost as (en3 & post0 & -> & _). exists rd, post0.
        unfold trace, event in *. rewrite <- !app_assoc. reflexivity.
      * destruct Hpost as [-> _]. exists rd, []. reflexivity.
    + destruct Hcont as [-> ->]. destruct Hpost as [-> ->]. split; reflexivity.
  - destruct Hcont as [-> ->]. destruct Hpost as [-> ->]. split; reflexivity.
Qed.

End DispatcherPosts.
(** C5.  When a post of the drainer fails, because the call throws or because
    the answer is not OK, the run ends there with the error: no call follows
    the failed post, so the entry is not deleted, nothing more is posted and
    no later entry is deleted. *)
Theorem drainer_stops_at_failed_send en pre channel text r post out :
  run en drainer = (pre ++ (slack_postMessage channel text, r) :: post, out) ->
  delivered r = false ->
  post = [] /\ out = Throw (failure r).
Proof.
  intros H Hr.
  apply drainer_cut in H. destruct H as [[_ Hev] | Hin]; [discriminate Hev |].
  destruct Hin as (result & hits & hit & pre0 & pre1 & post1 & out_h & _ & _ & _ & Ho & _ & Hpost).
  outcome_cases Ho Hcut; unfold found_line, quiet in *; try discriminate; subst.
  all: try match goal with
       | Hev : (_, _) = (_, _) |- _ => injection Hev as ? ? ?; subst
       end.
  all: first [exact Hpost | congruence].
Qed.

(** C6.  After a post of the drainer is delivered, the next events are, in this
    order, the line on the console, the delete of that entry from
    [unsent-slacks] and, once the delete has returned, a wait of 5000 ms;
    whatever the drainer does next, a further post included, comes after the
    wait.  If the delete throws, the run ends there. *)
Theorem drainer_delivery_then_delete_then_wait en pre channel text r post out :
  run en drainer = (pre ++ (slack_postMessage channel text, r) :: post, out) ->
  delivered r = true ->
  exists hit id line rd rest,
    get hit "_id" = Normal id /\
    resend_text hit = Normal text /\
    post = quiet (console_log line) :: (es_delete unsentSlacksIndex id, rd) :: rest /\
    match rd with
    | Normal _ => exists rest', rest = quiet (setTimeout 5000) :: rest'
    | Throw e => rest = [] /\ out = Throw e
    end.
Proof.
  intros H Hr.
  apply drainer_cut in H. destruct H as [[_ Hev] | Hin]; [discriminate Hev |].
  destruct Hin as (result & hits & hit & pre0 & pre1 & post1 & out_h & _ & _ & _ & Ho & _ & Hpost).
  outcome_cases Ho Hcut; unfold found_line, quiet in *; try discriminate; subst.
  all: try match goal with
       | Hev : (_, _) = (_, _) |- _ => injection Hev as ? ? ?; subst
       end.
  all: try congruence.
  - destruct Hpost as [-> ->].
    exists hit, hid, line, (Throw e0), []. repeat split; assumption.
  - destruct Hpost as [post0 ->].
    exists hit, hid, line, (Normal v0). eexists. repeat split; try assumption.
    exists post0. reflexivity.
Qed.

Section Requeue.
Variable JSON_parse : value -> completion value.
Variable alertType : AlertType.

(** What follows a failed post within the turn of its alert. *)
Lemma failed_post_turn alert channel text r post1 out_a :
  notify_outcome alertType alert ((slack_postMessage channel text, r) :: post1) out_a ->
  delivered r = false ->
  exists host subject message ri,
    fields alertType alert = Normal (host, subject, message) /\
    channel = slackChannel /\
    notify_text host subject message = Normal text /\
    post1 = [quiet (console_error (failure r));
             (es_index unsentSlacksIndex (unsent_body host subject message), ri)] /\
    out_a = cbind ri (fun _ => Normal tt).
Proof.
  intros Ho Hr.
  destruct (notify_cases Ho) as [(e & _ & Htr & _) | (host & subject & message & Hf & [Hok | Hko])].
  - discriminate Htr.
  - destruct Hok as (t & r' & line & _ & Hd & _ & Htr & _).
    injection Htr as _ _ -> _. congruence.
  - destruct Hko as (bef & e & ri & Ha & Htr & Hout).
    exists host, subject, message, ri.
    destruct Ha as [e Ht | t r' Ht Hd | t r' e Ht Hd Hl]; cbn [app] in Htr.
    + discriminate Htr.
    + injection Htr as -> -> -> ->. repeat split; assumption.
    + injection Htr as _ _ -> _. congruence.
Qed.

(** C3.  When a post of the dispatcher fails, what is inserted into
    [unsent-slacks] is the object with the fields host, subject and message,
    holding the host of the alert and what [getSubjectFunc] and
    [getMessageFunc] returned for it.  The banner of four emoji is part of the
    text posted and of nothing stored. *)
Theorem unsent_message_is_formatter_output en pre channel text r post out :
  run en (dispatcher JSON_parse alertType)
    = (pre ++ (slack_postMessage channel text, r) :: post, out) ->
  delivered r = false ->
  exists alert host subject message ri rest,
    fields alertType alert = Normal (host, subject, message) /\
    notify_text host subject message = Normal text /\
    post = quiet (console_error (failure r))
           :: (es_index unsentSlacksIndex
                 (Obj [("host", host); ("subject", subject); ("message", message)]), ri)
           :: rest.
Proof.
  intros H Hr. apply dispatcher_post_cut in H.
  destruct H as (hit & id & before & alert & after & post1 & out_a & _ & _ & Ho & Hcont).
  destruct (failed_post_turn Ho Hr) as (host & subject & message & ri & Hf & _ & Ht & -> & ->).
  exists alert, host, subject, message, ri.
  destruct ri as [v | e]; cbn [cbind] in Hcont.
  - destruct Hcont as (en' & tr_after & out_after & _ & Hcont).
    destruct out_after.
    + destruct Hcont as (rd & rest & ->). eexists; repeat split; first [eassumption | reflexivity].
    + destruct Hcont as [-> _]. eexists; repeat split; first [eassumption | reflexivity].
  - destruct Hcont as [-> _]. eexists; repeat split; first [eassumption | reflexivity].
Qed.

Lemma failed_post_continues en pre channel text r post out :
  run en (dispatcher JSON_parse alertType)
    = (pre ++ (slack_postMessage channel text, r) :: post, out) ->
  delivered r = false ->
  exists hit id before alert after host subject message ri rest,
    get hit "_id" = Normal id /\
    decoded_alerts JSON_parse hit = Normal (before ++ alert :: after) /\
    fields alertType alert = Normal (host, subject, message) /\
    post = quiet (console_error (failure r))
           :: (es_index unsentSlacksIndex (unsent_body host subject message), ri)
           :: rest /\
    match ri with
    | Throw e => rest = [] /\ out = Throw e
    | Normal _ =>
        exists en' tr_after out_after,
          run en' (for_each after (notify alertType)) = (tr_after, out_after) /\
          match out_after with
          | Throw e => rest = tr_after /\ out = Throw e
          | Normal _ =>
              exists rd rest',
                rest = tr_after ++ (es_delete (esIndex alertType) id, rd) :: rest'
          end
    end.
Proof.
  intros H Hr. apply dispatcher_post_cut in H.
  destruct H as (hit & id & before & alert & after & post1 & out_a & Hid & Hdec & Ho & Hcont).
  destruct (failed_post_turn Ho Hr) as (host & subject & message & ri & Hf & _ & Ht & -> & ->).
  exists hit, id, before, alert, after, host, subject, message, ri.
  destruct ri as [v | e]; cbn [cbind] in Hcont.
  - destruct Hcont as (en' & tr_after & out_after & Hafter & Hcont).
    destruct out_after as [[] | e].
    + destruct Hcont as (rd & rest & ->).
      exists (tr_after ++ (es_delete (esIndex alertType) id, rd) :: rest).
      repeat split; try assumption.
      exists en', tr_after, (Normal tt). split; [assumption |]. exists rd, rest. reflexivity.
    + destruct Hcont as [-> ->]. exists tr_after.
      repeat split; try assumption.
      exists en', tr_after, (Throw e). repeat split; assumption.
  - destruct Hcont as [-> ->]. exists []. repeat split; assumption.
Qed.

(** C4.  A post that comes back with an answer that is not OK and a post that
    throws are handled the same way.  In both cases the next two events are
    the error on the console and the insert of host, subject and message into
    [unsent-slacks]; the error logged is the only difference.  If the insert
    returns, the loop goes on with the alerts that remain, and when that loop
    completes the next event is the delete of the parent record. *)
Theorem rejected_post_is_handled_as_a_thrown_one en pre channel text r post out :
  run en (dispatcher JSON_parse alertType)
    = (pre ++ (slack_postMessage channel text, r) :: post, out) ->
  (exists e, r = Throw e) \/
  (exists v ok, r = Normal v /\ get v "ok" = Normal ok /\ truthy ok = false) ->
  exists hit id before alert after host subject message ri rest,
    get hit "_id" = Normal id /\
    decoded_alerts JSON_parse hit = Normal (before ++ alert :: after) /\
    fields alertType alert = Normal (host, subject, message) /\
    post = quiet (console_error (failure r))
           :: (es_index unsentSlacksIndex (unsent_body host subject message), ri)
           :: rest /\
    match ri with
    | Throw e => rest = [] /\ out = Throw e
    | Normal _ =>
        exists en' tr_after out_after,
          run en' (for_each after (notify alertType)) = (tr_after, out_after) /\
          match out_after with
          | Throw e => rest = tr_after /\ out = Throw e
          | Normal _ =>
              exists rd rest',
                rest = tr_after ++ (es_delete (esIndex alertType) id, rd) :: rest'
          end
    end.
Proof.
  intros H Hr. eapply failed_post_continues; [exact H |].
  destruct Hr as [[e ->] | (v & ok & -> & Hok & Ht)].
  - reflexivity.
  - unfold delivered. rewrite Hok. exact Ht.
Qed.

End Requeue.

Section DispatcherStops.
Variable JSON_parse : value -> completion value.
Variable alertType : AlertType.

(** The turn of an alert never deletes and never searches. *)
Lemma notify_never_deletes alert tr out :
  notify_outcome alertType alert tr out -> Forall (fun ev => is_delete ev = false) tr.
Proof.
  intro Ho.
  destruct (notify_cases Ho) as [(e & _ & -> & _) | (host & subject & message & _ & [Hok | Hko])].
  - constructor.
  - destruct Hok as (t & r & line & _ & _ & _ & -> & _). repeat constructor.
  - destruct Hko as (bef & e & ri & Ha & -> & _).
    destruct Ha; repeat constructor.
Qed.

Lemma notify_loop_never_deletes alerts : forall en tr out,
  run en (for_each alerts (notify alertType)) = (tr, out) ->
  Forall (fun ev => is_delete ev = false) tr.
Proof.
  induction alerts as [|a alerts IH]; intros en tr out H.
  - injection H as <- _. constructor.
  - cbn [for_each] in H. rewrite run_bind in H.
    destruct (run en (notify alertType a)) as [tra [[] | e]] eqn:Ha.
    + destruct (run (shift (List.length tra) en) (for_each alerts (notify alertType))) as [tr' out'] eqn:Hl.
      injection H as <- _. apply Forall_app. split.
      * eapply notify_never_deletes, notify_sound, Ha.
      * eapply IH, Hl.
    + injection H as <- _. eapply notify_never_deletes, notify_sound, Ha.
Qed.

(** C7.  When the insert into [unsent-slacks] throws, the run ends there with
    that error.  The trace up to the failed insert is the search, the complete
    turns of the records before, and events of the current record's turn none
    of which is a delete: the record is not deleted. *)
Theorem failed_insert_leaves_the_record en pre index body e post out :
  run en (dispatcher JSON_parse alertType)
    = (pre ++ (es_index index body, Throw e) :: post, out) ->
  post = [] /\ out = Throw e /\
  exists result before hit after pre0 pre1,
    hits_of result = Normal (before ++ hit :: after) /\
    run (later en) (for_each before (process_hit JSON_parse alertType)) = (pre0, Normal tt) /\
    pre = (es_search (esIndex alertType), Normal result) :: pre0 ++ pre1 /\
    Forall (fun ev => is_delete ev = false) pre1.
Proof.
  intro H. apply dispatcher_cut in H.
  destruct H as [[_ Hev] | Hin]; [discriminate Hev |].
  destruct Hin as (result & hits & before & hit & after & en' & pre0 & pre1 & post1 & out_h
                   & _ & Hhits & -> & Hbefore & Hh & -> & Hpost).
  apply process_hit_cut in Hh. destruct Hh as (id & alerts & Hid & Hdec & [Hin | Hdel]).
  2: { destruct Hdel as (rd & Hev & _). discriminate Hev. }
  destruct Hin as (abefore & alert & aafter & tr0 & tr1 & post1' & out_a & Hal & Hab & Ho & -> & Hcont).
  assert (Hturn : post1' = [] /\ out_a = Throw e /\ Forall (fun ev => is_delete ev = false) tr1).
  { pose proof (notify_never_deletes Ho) as Hnd.
    apply Forall_app in Hnd. destruct Hnd as [Hnd _].
    destruct (notify_cases Ho) as [(e' & _ & Htr & _) | (host & subject & message & _ & [Hok | Hko])].
    - destruct tr1; discriminate.
    - destruct Hok as (t & r & line & _ & _ & _ & Htr & _).
      unfold quiet in Htr. cuts Htr; discriminate.
    - destruct Hko as (bef & e' & ri & Ha & Htr & Hout).
      unfold quiet in Htr.
      destruct Ha; cbn [app] in Htr; cuts Htr; try discriminate; same_events.
      all: subst; cbn [cbind] in *; repeat split; try assumption; try reflexivity. }
  destruct Hturn as (-> & -> & Hnd).
  destruct Hcont as [-> ->]. destruct Hpost as [-> ->].
  split; [reflexivity |]. split; [reflexivity |].
  exists result, before, hit, after, pre0, (tr0 ++ tr1).
  repeat split; try assumption.
  apply Forall_app. split; [| assumption].
  eapply notify_loop_never_deletes, Hab.
Qed.

(** C9.  When the alerts of a record cannot be decoded (the text is missing,
    [JSON.parse] throws, or what it returns cannot be iterated), the run ends
    with that error right after the records before: nothing is posted or
    inserted for the record, and it is not deleted. *)
Theorem undecodable_record_stops_the_task en result before hit after id e tr0 :
  en O (es_search (esIndex alertType)) = Normal result ->
  hits_of result = Normal (before ++ hit :: after) ->
  run (later en) (for_each before (process_hit JSON_parse alertType)) = (tr0, Normal tt) ->
  get hit "_id" = Normal id ->
  decoded_alerts JSON_parse hit = Throw e ->
  run en (dispatcher JSON_parse alertType)
    = ((es_search (esIndex alertType), Normal result) :: tr0, Throw e).
Proof.
  intros Hs Hhits Hbefore Hid Hdec.
  unfold dispatcher. unfold hits_of, cbind in Hhits.
  cbn [run bind await lift answer infallible]. rewrite Hs. cbn [bind].
  destruct (get_path result ["hits"; "hits"]) as [v |]; [| discriminate].
  unfold for_of. rewrite Hhits. cbn [bind lift].
  rewrite run_for_each_app, Hbefore.
  assert (Hturn : forall en', run en' (process_hit JSON_parse alertType hit) = ([], Throw e)).
  { intro en'. unfold process_hit. rewrite Hid. cbn [bind lift].
    unfold decoded_alerts, cbind in Hdec.
    destruct (get_path hit ["_source"; "alertContexts"]) as [text |];
      [| injection Hdec as ->; reflexivity].
    cbn [bind]. destruct (JSON_parse text) as [alerts |];
      [| injection Hdec as ->; reflexivity].
    cbn [bind]. unfold for_of. rewrite Hdec. reflexivity. }
  cbn [for_each]. rewrite run_bind, Hturn. rewrite app_nil_r. reflexivity.
Qed.

Lemma dispatcher_failed_delete en pre index id e post out :
  run en (dispatcher JSON_parse alertType)
    = (pre ++ (es_delete index id, Throw e) :: post, out) ->
  post = [] /\ out = Throw e.
Proof.
  intro H. apply dispatcher_cut in H.
  destruct H as [[_ Hev] | Hin]; [discriminate Hev |].
  destruct Hin as (result & hits & before & hit & after & en' & pre0 & pre1 & post1 & out_h
                   & _ & _ & _ & _ & Hh & _ & Hpost).
  apply process_hit_cut in Hh. destruct Hh as (id' & alerts & _ & _ & [Hin | Hdel]).
  - destruct Hin as (abefore & alert & aafter & tr0 & tr1 & post1' & out_a & _ & _ & Ho & _).
    apply notify_never_deletes in Ho. apply Forall_app in Ho. destruct Ho as [_ Ho].
    inversion Ho as [| ? ? Hev _]. discriminate Hev.
  - destruct Hdel as (rd & Hev & -> & -> & _). injection Hev as _ _ <-.
    cbn [cbind] in Hpost. exact Hpost.
Qed.

Lemma dispatcher_delete_index en pre index id rd post out :
  run en (dispatcher JSON_parse alertType)
    = (pre ++ (es_delete index id, rd) :: post, out) ->
  index = esIndex alertType.
Proof.
  intro H. apply dispatcher_cut in H.
  destruct H as [[_ Hev] | Hin]; [discriminate Hev |].
  destruct Hin as (result & hits & before & hit & after & en' & pre0 & pre1 & post1 & out_h
                   & _ & _ & _ & _ & Hh & _ & Hpost).
  apply process_hit_cut in Hh. destruct Hh as (id' & alerts & _ & _ & [Hin | Hdel]).
  - destruct Hin as (abefore & alert & aafter & tr0 & tr1 & post1' & out_a & _ & _ & Ho & _).
    apply notify_never_deletes in Ho. apply Forall_app in Ho. destruct Ho as [_ Ho].
    inversion Ho as [| ? ? Hev _]. discriminate Hev.
  - destruct Hdel as (rd' & Hev & _). injection Hev as -> _ _. reflexivity.
Qed.

Lemma dispatcher_index_index en pre index body ri post out :
  run en (dispatcher JSON_parse alertType)
    = (pre ++ (es_index index body, ri) :: post, out) ->
  index = unsentSlacksIndex.
Proof.
  intro H. apply dispatcher_cut in H.
  destruct H as [[_ Hev] | Hin]; [discriminate Hev |].
  destruct Hin as (result & hits & before & hit & after & en' & pre0 & pre1 & post1 & out_h
                   & _ & _ & _ & _ & Hh & _ & Hpost).
  apply process_hit_cut in Hh. destruct Hh as (id' & alerts & _ & _ & [Hin | Hdel]).
  2: { destruct Hdel as (rd & Hev & _). discriminate Hev. }
  destruct Hin as (abefore & alert & aafter & tr0 & tr1 & post1' & out_a & _ & _ & Ho & _).
  destruct (notify_cases Ho) as [(e' & _ & Htr & _) | (host & subject & message & _ & [Hok | Hko])].
  - destruct tr1; discriminate.
  - destruct Hok as (t & r & line & _ & _ & _ & Htr & _).
    unfold quiet in Htr. cuts Htr; discriminate.
  - destruct Hko as (bef & e' & ri' & Ha & Htr & Hout).
    unfold quiet in Htr.
    destruct Ha; cbn [app] in Htr; cuts Htr; try discriminate; same_events; subst; reflexivity.
Qed.

End DispatcherStops.

Lemma drainer_failed_delete en pre index id e post out :
  run en drainer = (pre ++ (es_delete index id, Throw e) :: post, out) ->
  post = [] /\ out = Throw e.
Proof.
  intro H. apply drainer_cut in H. destruct H as [[_ Hev] | Hin]; [discriminate Hev |].
  destruct Hin as (result & hits & hit & pre0 & pre1 & post1 & out_h & _ & _ & _ & Ho & _ & Hpost).
  outcome_cases Ho Hcut; unfold found_line, quiet in *; try discriminate; same_events; subst.
  exact Hpost.
Qed.

(** C8, as amended.  A delete that throws is not caught, whatever the error
    (a document that is already gone included): the run ends there with the
    error, in the dispatcher and in the drainer. *)
Theorem failed_delete_stops_the_task :
  (forall JSON_parse alertType en pre index id e post out,
      run en (dispatcher JSON_parse alertType)
        = (pre ++ (es_delete index id, Throw e) :: post, out) ->
      post = [] /\ out = Throw e)
  /\
  (forall en pre index id e post out,
      run en drainer = (pre ++ (es_delete index id, Throw e) :: post, out) ->
      post = [] /\ out = Throw e).
Proof.
  split.
  - intros. eapply dispatcher_failed_delete; eassumption.
  - intros. eapply drainer_failed_delete; eassumption.
Qed.

Lemma drainer_delete en pre index id rd post out :
  run en drainer = (pre ++ (es_delete index id, rd) :: post, out) ->
  index = unsentSlacksIndex /\
  exists hit text r line pre',
    get hit "_id" = Normal id /\
    resend_text hit = Normal text /\
    delivered r = true /\
    pre = pre' ++ [(slack_postMessage slackChannel text, r); quiet (console_log line)].
Proof.
  intro H. apply drainer_cut in H. destruct H as [[_ Hev] | Hin]; [discriminate Hev |].
  destruct Hin as (result & hits & hit & pre0 & pre1 & post1 & out_h & _ & _ & _ & Ho & -> & Hpost).
  outcome_cases Ho Hcut; unfold found_line, quiet in *; try discriminate; same_events; subst.
  all: split; [reflexivity |].
  all: exists hit, text0, r0, line;
       eexists (_ :: pre0 ++ [_]); repeat split; try eassumption;
       unfold trace, event in *; cbn [app]; rewrite <- app_assoc; reflexivity.
Qed.

Lemma alert_indexes StringToNumber alertType :
  In alertType (alertTypes StringToNumber) -> esIndex alertType <> unsentSlacksIndex.
Proof.
  intros [<- | [<- | [<- | [<- | [<- | []]]]]]; discriminate.
Qed.

(** C10.  The dispatcher of each of the five alert types never deletes from
    [unsent-slacks], and every insert of a dispatcher goes to
    [unsent-slacks].  Every delete of the drainer is a delete from
    [unsent-slacks] of the entry whose post was just delivered: the two events
    before it are that post, answered OK, and the line on the console. *)
Theorem unsent_entries_leave_only_after_redelivery :
  (forall StringToNumber JSON_parse alertType en pre index id rd post out,
      In alertType (alertTypes StringToNumber) ->
      run en (dispatcher JSON_parse alertType)
        = (pre ++ (es_delete index id, rd) :: post, out) ->
      index <> unsentSlacksIndex)
  /\
  (forall JSON_parse alertType en pre index body ri post out,
      run en (dispatcher JSON_parse alertType)
        = (pre ++ (es_index index body, ri) :: post, out) ->
      index = unsentSlacksIndex)
  /\
  (forall en pre index id rd post out,
      run en drainer = (pre ++ (es_delete index id, rd) :: post, out) ->
      index = unsentSlacksIndex /\
      exists hit text r line pre',
        get hit "_id" = Normal id /\
        resend_text hit = Normal text /\
        delivered r = true /\
        pre = pre' ++ [(slack_postMessage slackChannel text, r); quiet (console_log line)]).
Proof.
  split; [| split].
  - intros S2N P t en pre index id rd post out Hin H.
    apply dispatcher_delete_index in H. subst index. eapply alert_indexes, Hin.
  - intros. eapply dispatcher_index_index; eassumption.
  - intros. eapply drainer_delete; eassumption.
Qed.

(** ** The formatter table *)

Section Formatters.
Variable StringToNumber : string -> float.

(** C2.  Subject and body per alert type, for an alert that holds the fields
    the type reads: the log file path and the raw message for log errors;
    [High disk usage on] the mount point and the used fraction times 100
    followed by [%] for disk space; [High memory usage] and the percentage for
    memory usage; [Down systemd service] and [name is state] for systemd;
    [Unhealthy docker container] and [name is status] for docker.  A disk
    usage of 0.92 gives the body [92%]. *)
Theorem formatter_table (alert : value) :
  (forall path message,
      get_path alert ["_source"; "log"; "file"; "path"] = Normal path ->
      get_path alert ["_source"; "message"] = Normal message ->
      getSubjectFunc log_errors alert = Normal path /\
      getMessageFunc log_errors alert = Normal message)
  /\
  (forall mount_point pct,
      get_path alert ["_source"; "system"; "filesystem"; "mount_point"] = Normal (Str mount_point) ->
      get_path alert ["_source"; "system"; "filesystem"; "used"; "pct"] = Normal (Num pct) ->
      getSubjectFunc (disk_space StringToNumber) alert
        = Normal (Str ("High disk usage on " +++ mount_point)) /\
      getMessageFunc (disk_space StringToNumber) alert
        = Normal (Str (Number_toString (PrimFloat.mul pct 100) +++ "%")))
  /\
  (forall pct,
      get_path alert ["_source"; "system"; "memory"; "actual"; "used"; "pct"] = Normal (Num pct) ->
      getSubjectFunc (memory_usage StringToNumber) alert = Normal (Str "High memory usage") /\
      getMessageFunc (memory_usage StringToNumber) alert
        = Normal (Str (Number_toString (PrimFloat.mul pct 100) +++ "%")))
  /\
  (forall name state,
      get_path alert ["_source"; "system"; "service"; "name"] = Normal (Str name) ->
      get_path alert ["_source"; "system"; "service"; "state"] = Normal (Str state) ->
      getSubjectFunc systemd alert = Normal (Str "Down systemd service") /\
      getMessageFunc systemd alert = Normal (Str (name +++ " is " +++ state)))
  /\
  (forall name status,
      get_path alert ["_source"; "container"; "name"] = Normal (Str name) ->
      get_path alert ["_source"; "docker"; "container"; "status"] = Normal (Str status) ->
      getSubjectFunc docker_unhealthy_container alert = Normal (Str "Unhealthy docker container") /\
      getMessageFunc docker_unhealthy_container alert = Normal (Str (name +++ " is " +++ status)))
  /\
  (get_path alert ["_source"; "system"; "filesystem"; "used"; "pct"] = Normal (Num pct_92) ->
   getMessageFunc (disk_space StringToNumber) alert = Normal (Str "92%")).
Proof.
  repeat split.
  - assumption.
  - assumption.
  - cbn [getSubjectFunc disk_space]. rewrite H. reflexivity.
  - cbn [getMessageFunc disk_space]. rewrite H0. reflexivity.
  - cbn [getMessageFunc memory_usage]. rewrite H. reflexivity.
  - cbn [getMessageFunc systemd]. rewrite H, H0. reflexivity.
  - cbn [getMessageFunc docker_unhealthy_container]. rewrite H, H0. reflexivity.
  - intro H. cbn [getMessageFunc disk_space]. rewrite H. vm_compute. reflexivity.
Qed.

End Formatters.

(** ** The claims on sample runs *)

(** C1 fails for a log alert that has no [message].  The post is delivered;
    then the line for the console reads [message.length] of [undefined],
    which throws inside the [try]; the [catch] stores the alert in
    [unsent-slacks].  The alert is both delivered and requeued, and the record
    is deleted as processed. *)
Theorem alert_without_message_is_posted_and_requeued :
  run (always (all_well [alert_hit "a1" "one-log-alert-without-message"]))
      (dispatcher sample_decoder log_errors)
  = ([(es_search "alerts-log-errors",
       Normal (search_result [alert_hit "a1" "one-log-alert-without-message"]));
      (slack_postMessage slackChannel messageless_text, Normal OK);
      quiet (console_error TypeError);
      (es_index unsentSlacksIndex
         (unsent_body (Str "web1") (Str "/var/log/app.log") Undefined),
       Normal Undefined);
      (es_delete "alerts-log-errors" (Str "a1"), Normal Undefined)],
     Normal tt).
Proof. vm_compute. reflexivity. Qed.

(** C8 as stated fails: a delete that finds the document gone ends the run.
    In the dispatcher the first of two records has no alerts and its delete is
    answered 404: nothing is logged and the second record is never looked at.
    In the drainer the first of two entries is resent and its delete is
    answered 404: the second entry is never resent. *)
Lemma not_found_on_delete_ends_the_run :
  run (always (deletes_not_found [alert_hit "a1" "none"; alert_hit "a2" "one-systemd-alert"]))
      (dispatcher sample_decoder systemd)
  = ([(es_search "alerts-systemd",
       Normal (search_result [alert_hit "a1" "none"; alert_hit "a2" "one-systemd-alert"]));
      (es_delete "alerts-systemd" (Str "a1"), Throw NotFound)],
     Throw NotFound)
  /\
  run (always (deletes_not_found [nginx_unsent; api_unsent])) drainer
  = ([(es_search unsentSlacksIndex, Normal (search_result [nginx_unsent; api_unsent]));
      found_line "u1";
      (slack_postMessage slackChannel nginx_resend_text, Normal OK);
      quiet (console_log "posted 69 chars to Slack");
      (es_delete unsentSlacksIndex (Str "u1"), Throw NotFound)],
     Throw NotFound).
Proof. split; vm_compute; reflexivity. Qed.

Lemma formatter_table_witness :
  (getSubjectFunc (disk_space no_number) disk_alert = Normal (Str "High disk usage on /data") /\
   getMessageFunc (disk_space no_number) disk_alert
     = Normal (Str (Number_toString (PrimFloat.mul pct_92 100) +++ "%")))
  /\ getMessageFunc (disk_space no_number) disk_alert = Normal (Str "92%").
Proof.
  split.
  - apply (proj1 (proj2 (formatter_table no_number disk_alert)) "/data" pct_92); reflexivity.
  - apply (proj2 (proj2 (proj2 (proj2 (proj2 (formatter_table no_number disk_alert)))))).
    reflexivity.
Defined.

Lemma drainer_stops_at_failed_send_witness :
  @nil event = [] /\ Throw (A := unit) non_OK = Throw (failure (Normal not_OK)).
Proof.
  apply (@drainer_stops_at_failed_send
           (always (posts_rejected [nginx_unsent; api_unsent]))
           [(es_search unsentSlacksIndex, Normal (search_result [nginx_unsent; api_unsent]));
            found_line "u1"]
           slackChannel nginx_resend_text (Normal not_OK) [] (Throw non_OK)).
  - vm_compute. reflexivity.
  - reflexivity.
Defined.

Lemma drainer_delivery_then_delete_then_wait_witness :
  exists hit id line rd rest,
    get hit "_id" = Normal id /\
    resend_text hit = Normal nginx_resend_text /\
    [quiet (console_log "posted 69 chars to Slack");
     (es_delete unsentSlacksIndex (Str "u1"), Normal Undefined);
     quiet (setTimeout 5000)]
    = quiet (console_log line) :: (es_delete unsentSlacksIndex id, rd) :: rest /\
    match rd with
    | Normal _ => exists rest', rest = quiet (setTimeout 5000) :: rest'
    | Throw e => rest = [] /\ Normal tt = Throw e
    end.
Proof.
  apply (@drainer_delivery_then_delete_then_wait
           (always (all_well [nginx_unsent]))
           [(es_search unsentSlacksIndex, Normal (search_result [nginx_unsent]));
            found_line "u1"]
           slackChannel nginx_resend_text (Normal OK)).
  - vm_compute. reflexivity.
  - reflexivity.
Defined.

Lemma unsent_message_is_formatter_output_witness :
  exists alert host subject message ri rest,
    fields systemd alert = Normal (host, subject, message) /\
    notify_text host subject message = Normal nginx_alert_text /\
    [quiet (console_error non_OK);
     (es_index unsentSlacksIndex
        (Obj [("host", Str "web1"); ("subject", Str "Down systemd service");
              ("message", Str "nginx is failed")]),
      Normal Undefined);
     (es_delete "alerts-systemd" (Str "a1"), Normal Undefined)]
    = quiet (console_error (failure (Normal not_OK)))
      :: (es_index unsentSlacksIndex
            (Obj [("host", host); ("subject", subject); ("message", message)]), ri)
      :: rest.
Proof.
  apply (@unsent_message_is_formatter_output sample_decoder systemd
           (always (posts_rejected [alert_hit "a1" "one-systemd-alert"]))
           [(es_search "alerts-systemd",
             Normal (search_result [alert_hit "a1" "one-systemd-alert"]))]
           slackChannel nginx_alert_text (Normal not_OK)
           _ (Normal tt)).
  - vm_compute. reflexivity.
  - reflexivity.
Defined.

Lemma rejected_post_is_handled_as_a_thrown_one_witness :
  exists hit id before alert after host subject message ri rest,
    get hit "_id" = Normal id /\
    decoded_alerts sample_decoder hit = Normal (before ++ alert :: after) /\
    fields systemd alert = Normal (host, subject, message) /\
    [quiet (console_error non_OK);
     (es_index unsentSlacksIndex
        (unsent_body (Str "web1") (Str "Down systemd service") (Str "nginx is failed")),
      Normal Undefined);
     (slack_postMessage slackChannel nginx_alert_text, Normal not_OK);
     quiet (console_error non_OK);
     (es_index unsentSlacksIndex
        (unsent_body (Str "web1") (Str "Down systemd service") (Str "nginx is failed")),
      Normal Undefined);
     (es_delete "alerts-systemd" (Str "a1"), Normal Undefined)]
    = quiet (console_error (failure (Normal not_OK)))
      :: (es_index unsentSlacksIndex (unsent_body host subject message), ri)
      :: rest /\
    match ri with
    | Throw e => rest = [] /\ Normal tt = Throw e
    | Normal _ =>
        exists en' tr_after out_after,
          run en' (for_each after (notify systemd)) = (tr_after, out_after) /\
          match out_after with
          | Throw e => rest = tr_after /\ Normal tt = Throw e
          | Normal _ =>
              exists rd rest',
                rest = tr_after ++ (es_delete (esIndex systemd) id, rd) :: rest'
          end
    end.
Proof.
  apply (@rejected_post_is_handled_as_a_thrown_one sample_decoder systemd
           (always (posts_rejected [alert_hit "a1" "two-systemd-alerts"]))
           [(es_search "alerts-systemd",
             Normal (search_result [alert_hit "a1" "two-systemd-alerts"]))]
           slackChannel nginx_alert_text (Normal not_OK)).
  - vm_compute. reflexivity.
  - right. exists not_OK, (Bool false). repeat split; reflexivity.
Defined.

Lemma failed_insert_leaves_the_record_witness :
  @nil event = [] /\ Throw (A := unit) ConnectionError = Throw ConnectionError /\
  exists result before hit after pre0 pre1,
    hits_of result = Normal (before ++ hit :: after) /\
    run (later (always (inserts_fail [alert_hit "a1" "one-systemd-alert"])))
        (for_each before (process_hit sample_decoder systemd)) = (pre0, Normal tt) /\
    [(es_search "alerts-systemd",
      Normal (search_result [alert_hit "a1" "one-systemd-alert"]));
     (slack_postMessage slackChannel nginx_alert_text, Normal not_OK);
     quiet (console_error non_OK)]
    = (es_search (esIndex systemd), Normal result) :: pre0 ++ pre1 /\
    Forall (fun ev => is_delete ev = false) pre1.
Proof.
  apply (@failed_insert_leaves_the_record sample_decoder systemd
           (always (inserts_fail [alert_hit "a1" "one-systemd-alert"]))
           [(es_search "alerts-systemd",
             Normal (search_result [alert_hit "a1" "one-systemd-alert"]));
            (slack_postMessage slackChannel nginx_alert_text, Normal not_OK);
            quiet (console_error non_OK)]
           unsentSlacksIndex
           (unsent_body (Str "web1") (Str "Down systemd service") (Str "nginx is failed"))
           ConnectionError [] (Throw ConnectionError)).
  vm_compute. reflexivity.
Defined.

Lemma failed_delete_stops_the_task_witness :
  @nil event = [] /\ Throw (A := unit) NotFound = Throw NotFound.
Proof.
  apply (proj1 failed_delete_stops_the_task sample_decoder systemd
           (always (deletes_not_found [alert_hit "a1" "none"; alert_hit "a2" "one-systemd-alert"]))
           [(es_search "alerts-systemd",
             Normal (search_result [alert_hit "a1" "none"; alert_hit "a2" "one-systemd-alert"]))]
           "alerts-systemd" (Str "a1") NotFound [] (Throw NotFound)).
  vm_compute. reflexivity.
Defined.

Lemma undecodable_record_stops_the_task_witness :
  run (always (all_well [alert_hit "a1" "none"; alert_hit "a2" "not json";
                         alert_hit "a3" "one-systemd-alert"]))
      (dispatcher sample_decoder systemd)
  = ((es_search (esIndex systemd),
      Normal (search_result [alert_hit "a1" "none"; alert_hit "a2" "not json";
                             alert_hit "a3" "one-systemd-alert"]))
     :: [(es_delete "alerts-systemd" (Str "a1"), Normal Undefined)],
     Throw SyntaxError).
Proof.
  apply (@undecodable_record_stops_the_task sample_decoder systemd
           (always (all_well [alert_hit "a1" "none"; alert_hit "a2" "not json";
                              alert_hit "a3" "one-systemd-alert"]))
           (search_result [alert_hit "a1" "none"; alert_hit "a2" "not json";
                           alert_hit "a3" "one-systemd-alert"])
           [alert_hit "a1" "none"] (alert_hit "a2" "not json")
           [alert_hit "a3" "one-systemd-alert"] (Str "a2") SyntaxError).
  - reflexivity.
  - reflexivity.
  - vm_compute. reflexivity.
  - reflexivity.
  - reflexivity.
Defined.

Lemma unsent_entries_leave_only_after_redelivery_witness :
  "alerts-systemd" <> unsentSlacksIndex /\
  (unsentSlacksIndex = unsentSlacksIndex /\
   exists hit text r line pre',
     get hit "_id" = Normal (Str "u1") /\
     resend_text hit = Normal text /\
     delivered r = true /\
     [(es_search unsentSlacksIndex, Normal (search_result [nginx_unsent]));
      found_line "u1";
      (slack_postMessage slackChannel nginx_resend_text, Normal OK);
      quiet (console_log "posted 69 chars to Slack")]
     = pre' ++ [(slack_postMessage slackChannel text, r); quiet (console_log line)]).
Proof.
  split.
  - apply (proj1 unsent_entries_leave_only_after_redelivery no_number sample_decoder systemd
             (always (all_well [alert_hit "a1" "none"]))
             [(es_search "alerts-systemd", Normal (search_result [alert_hit "a1" "none"]))]
             "alerts-systemd" (Str "a1") (Normal Undefined) [] (Normal tt)).
    + right. right. right. left. reflexivity.
    + vm_compute. reflexivity.
  - apply (proj2 (proj2 unsent_entries_leave_only_after_redelivery)
             (always (all_well [nginx_unsent]))
             [(es_search unsentSlacksIndex, Normal (search_result [nginx_unsent]));
              found_line "u1";
              (slack_postMessage slackChannel nginx_resend_text, Normal OK);
              quiet (console_log "posted 69 chars to Slack")]
             unsentSlacksIndex (Str "u1") (Normal Undefined)
             [quiet (setTimeout 5000)] (Normal tt)).
    vm_compute. reflexivity.
Defined.

(** * Further properties of the two flows *)

(** ** Loops, turn by turn *)

(** To prove a property of every run of a loop, prove it of the empty loop, of
    a loop that stops in its first turn, and of a first turn followed by the
    rest. *)
Lemma run_for_each_ind (body : value -> task unit)
      (turn : value -> trace -> completion unit -> Prop)
      (P : list value -> trace -> completion unit -> Prop) :
  (forall en x tr out, run en (body x) = (tr, out) -> turn x tr out) ->
  P [] [] (Normal tt) ->
  (forall x rest tr e, turn x tr (Throw e) -> P (x :: rest) tr (Throw e)) ->
  (forall x rest tr tr' out,
      turn x tr (Normal tt) -> P rest tr' out -> P (x :: rest) (tr ++ tr') out) ->
  forall items en tr out,
    run en (for_each items body) = (tr, out) -> P items tr out.
Proof.
  intros Hturn Hnil Hstop Hnext.
  induction items as [|x rest IH]; intros en tr out H.
  - injection H as <- <-. exact Hnil.
  - cbn [for_each] in H. rewrite run_bind in H.
    destruct (run en (body x)) as [trx [[] | e]] eqn:Hx.
    + destruct (run (shift (List.length trx) en) (for_each rest body)) as [tr' out'] eqn:Hr.
      injection H as <- <-. apply Hnext; [eapply Hturn, Hx | eapply IH, Hr].
    + injection H as <- <-. apply Hstop. eapply Hturn, Hx.
Qed.

Lemma count_app p tr1 tr2 : count p (tr1 ++ tr2) = count p tr1 + count p tr2.
Proof. unfold count. rewrite filter_app, length_app. reflexivity. Qed.

Lemma deleted_ids_app tr1 tr2 : deleted_ids (tr1 ++ tr2) = deleted_ids tr1 ++ deleted_ids tr2.
Proof. apply flat_map_app. Qed.

Lemma delivered_texts_app tr1 tr2 :
  delivered_texts (tr1 ++ tr2) = delivered_texts tr1 ++ delivered_texts tr2.
Proof. apply flat_map_app. Qed.

(** ** The drainer, counted *)

(** What one turn of the drainer adds to the counts. *)
Lemma resend_counts hit tr out :
  resend_outcome hit tr out ->
  count is_post tr <= 1 /\
  count is_delete tr = count is_delivered_post tr /\
  (out = Normal tt ->
   count is_post tr = 1 /\
   count is_delivered_post tr = 1 /\
   (exists text, resend_text hit = Normal text /\ delivered_texts tr = [text]) /\
   (exists id, get hit "_id" = Normal id /\ deleted_ids tr = [id])).
Proof.
  intros [e He | id id_text e Hid Hidt Ht | id id_text text r Hid Hidt Ht Hd
         | id id_text text r line e Hid Hidt Ht Hd | id id_text text r line v Hid Hidt Ht Hd];
    unfold count, is_delivered_post, delivered_texts, deleted_ids, found_line, quiet;
    cbn [filter flat_map is_post is_delete fst snd andb List.length app];
    rewrite ?Hd; cbn [List.length app];
    (split; [lia |]); (split; [reflexivity |]); intro Hout; try discriminate Hout.
  split; [reflexivity |]. split; [reflexivity |].
  split; [exists text | exists id]; split; assumption || reflexivity.
Qed.

Lemma drainer_loop_counts hits : forall en tr out,
  run en (for_each hits resend) = (tr, out) ->
  count is_post tr <= List.length hits /\
  count is_delete tr = count is_delivered_post tr /\
  (out = Normal tt ->
   count is_post tr = List.length hits /\
   count is_delivered_post tr = List.length hits /\
   Forall2 (fun hit text => resend_text hit = Normal text) hits (delivered_texts tr) /\
   Forall2 (fun hit id => get hit "_id" = Normal id) hits (deleted_ids tr)).
Proof.
  apply (@run_for_each_ind resend resend_outcome
           (fun hits tr out =>
              count is_post tr <= List.length hits /\
              count is_delete tr = count is_delivered_post tr /\
              (out = Normal tt ->
               count is_post tr = List.length hits /\
               count is_delivered_post tr = List.length hits /\
               Forall2 (fun hit text => resend_text hit = Normal text) hits (delivered_texts tr) /\
               Forall2 (fun hit id => get hit "_id" = Normal id) hits (deleted_ids tr)))).
  - intros en x tr out. apply resend_sound.
  - repeat split; try constructor. 
  - intros x rest tr e Ho. apply resend_counts in Ho. destruct Ho as (Hp & Hd & _).
    cbn [List.length]. split; [lia |]. split; [exact Hd |]. discriminate.
  - intros x rest tr tr' out Ho (Hp' & Hd' & Hc'). apply resend_counts in Ho.
    destruct Ho as (Hp & Hd & Hc). rewrite !count_app. cbn [List.length].
    split; [lia |]. split; [lia |]. intros ->.
    destruct (Hc eq_refl) as (Hp1 & Hd1 & (text & Ht & Htx) & (id & Hid & Hids)).
    destruct (Hc' eq_refl) as (Hpn & Hdn & Htxs & Hidss).
    rewrite delivered_texts_app, deleted_ids_app, Htx, Hids.
    split; [lia |]. split; [lia |]. split; constructor; assumption.
Qed.

(** X2.  In every run of the drainer there are at most as many posts as the
    search returned hits, and exactly as many deletes as delivered posts. *)
Theorem drainer_accounting en result hits tr out :
  en O (es_search unsentSlacksIndex) = Normal result ->
  hits_of result = Normal hits ->
  run en drainer = (tr, out) ->
  count is_post tr <= List.length hits /\
  count is_delete tr = count is_delivered_post tr.
Proof.
  intros Hs Hh H. unfold drainer in H.
  cbn [run bind await lift answer infallible] in H. rewrite Hs in H. cbn [bind] in H.
  unfold hits_of, cbind in Hh.
  destruct (get_path result ["hits"; "hits"]) as [v |]; [| discriminate].
  unfold for_of in H. rewrite Hh in H. cbn [bind lift] in H.
  destruct (run (later en) (for_each hits resend)) as [tr' out'] eqn:Hl.
  injection H as <- <-.
  apply drainer_loop_counts in Hl. destruct Hl as (Hp & Hd & _).
  change ((es_search unsentSlacksIndex, Normal result) :: tr')
    with ([(es_search unsentSlacksIndex, Normal result)] ++ tr').
  rewrite !count_app. split; [exact Hp | exact Hd].
Qed.

(** X3.  In a run of the drainer that completes, every hit is resent and
    deleted once, in the order of the search result: the texts of the
    delivered posts are the texts of the hits, the ids deleted are the ids of
    the hits, and there are as many posts and as many deletes as hits. *)
Theorem drainer_complete_run en result hits tr :
  en O (es_search unsentSlacksIndex) = Normal result ->
  hits_of result = Normal hits ->
  run en drainer = (tr, Normal tt) ->
  Forall2 (fun hit text => resend_text hit = Normal text) hits (delivered_texts tr) /\
  Forall2 (fun hit id => get hit "_id" = Normal id) hits (deleted_ids tr) /\
  count is_post tr = List.length hits /\
  count is_delete tr = List.length hits.
Proof.
  intros Hs Hh H. unfold drainer in H.
  cbn [run bind await lift answer infallible] in H. rewrite Hs in H. cbn [bind] in H.
  unfold hits_of, cbind in Hh.
  destruct (get_path result ["hits"; "hits"]) as [v |]; [| discriminate].
  unfold for_of in H. rewrite Hh in H. cbn [bind lift] in H.
  destruct (run (later en) (for_each hits resend)) as [tr' out'] eqn:Hl.
  injection H as <- ->.
  apply drainer_loop_counts in Hl. destruct Hl as (Hp & Hd & Hc).
  destruct (Hc eq_refl) as (Hpn & Hdn & Htx & Hids).
  change ((es_search unsentSlacksIndex, Normal result) :: tr')
    with ([(es_search unsentSlacksIndex, Normal result)] ++ tr').
  rewrite !count_app, delivered_texts_app, deleted_ids_app.
  cbn [delivered_texts deleted_ids flat_map app].
  repeat split; try assumption.
  cbn [count filter is_delete fst List.length Nat.add]. fold (count is_delete tr').
  rewrite Hd. exact Hdn.
Qed.

(** ** The dispatcher, alert by alert *)

(** A loop that completes is made of one completed turn per item. *)
Lemma run_for_each_turns (body : value -> task unit)
      (turn : value -> trace -> completion unit -> Prop) :
  (forall en x tr out, run en (body x) = (tr, out) -> turn x tr out) ->
  forall items en tr,
    run en (for_each items body) = (tr, Normal tt) ->
    exists blocks,
      tr = turns blocks /\
      Forall2 (fun x b => turn x b (Normal tt)) items blocks.
Proof.
  intros Hturn items en tr H.
  refine (@run_for_each_ind body turn
            (fun items tr out =>
               out = Normal tt ->
               exists blocks,
                 tr = turns blocks /\
                 Forall2 (fun x b => turn x b (Normal tt)) items blocks)
            Hturn _ _ _ items en tr (Normal tt) H eq_refl).
  - intros _. exists []. split; [reflexivity | constructor].
  - intros x rest tr0 e _ Hout. discriminate Hout.
  - intros x rest tr0 tr' out Hx IH Hout.
    destruct (IH Hout) as (blocks & -> & Hall).
    exists (tr0 :: blocks). split; [reflexivity | constructor; [subst out |]; assumption].
Qed.

Section Accounting.
Variable JSON_parse : value -> completion value.
Variable alertType : AlertType.

(** A turn of a record that completes: the turns of its alerts, then the
    delete. *)
Lemma process_hit_complete en hit tr :
  run en (process_hit JSON_parse alertType hit) = (tr, Normal tt) ->
  exists id alerts blocks v,
    get hit "_id" = Normal id /\
    decoded_alerts JSON_parse hit = Normal alerts /\
    Forall2 (fun alert b => notify_outcome alertType alert b (Normal tt)) alerts blocks /\
    tr = turns blocks ++ [(es_delete (esIndex alertType) id, Normal v)].
Proof.
  intro H. unfold process_hit in H. cbn [bind lift] in H.
  destruct (get hit "_id") as [id |] eqn:Hid; [| discriminate H].
  cbn [bind] in H.
  destruct (get_path hit ["_source"; "alertContexts"]) as [text |] eqn:Ht; [| discriminate H].
  cbn [bind] in H.
  destruct (JSON_parse text) as [v |] eqn:Hp; [| discriminate H].
  cbn [bind] in H. rewrite run_bind in H.
  destruct (run en (for_of v (notify alertType))) as [trl [[] | e]] eqn:Hl; [| discriminate H].
  apply run_for_of in Hl.
  destruct (iterate v) as [alerts |] eqn:Hi; [| destruct Hl; discriminate].
  cbn [run bind await ret answer infallible] in H.
  destruct (shift (List.length trl) en O (es_delete (esIndex alertType) id)) as [w | e] eqn:Hd;
    [| discriminate H].
  injection H as <-.
  apply (@run_for_each_turns (notify alertType) (notify_outcome alertType)) in Hl;
    [| intros en0 x tr0 out0; apply notify_sound].
  destruct Hl as (blocks & -> & Hall).
  exists id, alerts, blocks, w.
  repeat split; try assumption.
  unfold decoded_alerts, cbind. rewrite Ht, Hp. exact Hi.
Qed.

(** What a completed turn of an alert holds: at most one post, at most one
    insert, no delete, and a delivered post or an insert. *)
Lemma notify_turn_counts alert b :
  notify_outcome alertType alert b (Normal tt) ->
  count is_post b <= 1 /\
  count is_index b <= 1 /\
  count is_delete b = 0 /\
  1 <= count is_delivered_post b + count is_index b.
Proof.
  intro Ho.
  destruct (notify_cases Ho) as [(e & _ & _ & Hout) | (host & subject & message & _ & [Hok | Hko])].
  - discriminate Hout.
  - destruct Hok as (text & r & line & _ & Hd & _ & -> & _).
    unfold count, is_delivered_post, quiet.
    cbn [filter is_post is_index is_delete fst snd andb List.length]. rewrite Hd.
    cbn [List.length]. lia.
  - destruct Hko as (bef & e & ri & Ha & -> & _).
    destruct Ha as [e Ht | text r Ht Hd | text r e Ht Hd Hl];
      unfold count, is_delivered_post, quiet;
      cbn [app filter is_post is_index is_delete fst snd andb List.length];
      rewrite ?Hd; cbn [List.length]; lia.
Qed.

Lemma notify_turn_exactly_one alert b :
  loggable alertType ->
  notify_outcome alertType alert b (Normal tt) ->
  count is_delivered_post b + count is_index b = 1.
Proof.
  intros Hlog Ho.
  destruct (notify_cases Ho) as [(e & _ & _ & Hout) | (host & subject & message & Hf & [Hok | Hko])].
  - discriminate Hout.
  - destruct Hok as (text & r & line & _ & Hd & _ & -> & _).
    unfold count, is_delivered_post, quiet.
    cbn [filter is_post is_index is_delete fst snd andb List.length]. rewrite Hd.
    reflexivity.
  - destruct Hko as (bef & e & ri & Ha & -> & _).
    destruct Ha as [e Ht | text r Ht Hd | text r e Ht Hd Hl].
    + reflexivity.
    + unfold count, is_delivered_post, quiet.
      cbn [app filter is_post is_index is_delete fst snd andb List.length]. rewrite Hd.
      reflexivity.
    + destruct (Hlog _ _ _ _ Hf) as [line Hline]. congruence.
Qed.

(** X4.  When the turn of a record completes, its trace is one turn per alert
    followed by the delete of the record, and the turn of each alert holds at
    most one post, at most one insert, no delete, and a delivered post or an
    insert: no alert is dropped, whatever the alert type. *)
Theorem processed_record_accounts_for_every_alert en hit tr :
  run en (process_hit JSON_parse alertType hit) = (tr, Normal tt) ->
  exists id alerts blocks v,
    get hit "_id" = Normal id /\
    decoded_alerts JSON_parse hit = Normal alerts /\
    tr = turns blocks ++ [(es_delete (esIndex alertType) id, Normal v)] /\
    Forall2 (fun (alert : value) b =>
               count is_post b <= 1 /\
               count is_index b <= 1 /\
               count is_delete b = 0 /\
               1 <= count is_delivered_post b + count is_index b)
            alerts blocks.
Proof.
  intro H. apply process_hit_complete in H.
  destruct H as (id & alerts & blocks & v & Hid & Hdec & Hall & ->).
  exists id, alerts, blocks, v. repeat split; try assumption.
  eapply Forall2_impl; [| exact Hall].
  intros alert b Ho. apply notify_turn_counts with (alert := alert). exact Ho.
Qed.

End Accounting.

(** The message of a templated alert type is a string. *)
Lemma templated_message_is_string StringToNumber alertType alert message :
  In alertType (templated StringToNumber) ->
  getMessageFunc alertType alert = Normal message ->
  exists s, message = Str s.
Proof.
  intros [<- | [<- | [<- | [<- | []]]]] H;
    cbn [getMessageFunc disk_space memory_usage systemd docker_unhealthy_container] in H;
    unfold percent_template, is_template, cbind in H;
    repeat match type of H with
           | match ?c with Normal _ => _ | Throw _ => _ end = _ => destruct c; try discriminate H
           end;
    injection H as <-; eexists; reflexivity.
Qed.

Lemma templated_loggable StringToNumber alertType :
  In alertType (templated StringToNumber) -> loggable alertType.
Proof.
  intros Hin alert host subject message Hf.
  unfold fields, cbind in Hf.
  destruct (get_path alert ["_source"; "host"]); [| discriminate].
  destruct (getSubjectFunc alertType alert); [| discriminate].
  destruct (getMessageFunc alertType alert) as [m |] eqn:Hm; [| discriminate].
  injection Hf as _ _ <-.
  destruct (templated_message_is_string _ Hin Hm) as [s ->].
  apply posted_line_Str.
Qed.

(** X5.  For the four alert types whose message is a template literal (disk
    space, memory usage, systemd, docker), every alert of a record whose turn
    completes is either delivered or inserted into [unsent-slacks], never
    both. *)
Theorem templated_alert_is_delivered_or_requeued
        StringToNumber JSON_parse alertType en hit tr :
  In alertType (templated StringToNumber) ->
  run en (process_hit JSON_parse alertType hit) = (tr, Normal tt) ->
  exists id alerts blocks v,
    get hit "_id" = Normal id /\
    decoded_alerts JSON_parse hit = Normal alerts /\
    tr = turns blocks ++ [(es_delete (esIndex alertType) id, Normal v)] /\
    Forall2 (fun (alert : value) b =>
               count is_delivered_post b + count is_index b = 1 /\
               count is_delete b = 0)
            alerts blocks.
Proof.
  intros Hin H. apply process_hit_complete in H.
  destruct H as (id & alerts & blocks & v & Hid & Hdec & Hall & ->).
  exists id, alerts, blocks, v. repeat split; try assumption.
  eapply Forall2_impl; [| exact Hall].
  intros alert b Ho. split.
  - eapply notify_turn_exactly_one; [eapply templated_loggable, Hin | exact Ho].
  - eapply notify_turn_counts, Ho.
Qed.

(** ** Edges of the dispatcher *)

Section DispatcherEdges.
Variable JSON_parse : value -> completion value.
Variable alertType : AlertType.

Lemma after_delivered_post en pre channel text r post out :
  run en (dispatcher JSON_parse alertType)
    = (pre ++ (slack_postMessage channel text, r) :: post, out) ->
  delivered r = true ->
  (exists line rest,
      post = quiet (console_log line) :: quiet (setTimeout 5000) :: rest)
  \/
  (exists alert host subject message e ri rest,
      fields alertType alert = Normal (host, subject, message) /\
      posted_line message = Throw e /\
      post = quiet (console_error e)
             :: (es_index unsentSlacksIndex (unsent_body host subject message), ri)
             :: rest).
Proof.
  intros H Hr. apply dispatcher_post_cut in H.
  destruct H as (hit & id & before & alert & after & post1 & out_a & _ & _ & Ho & Hcont).
  assert (Hrest : exists rest, post = post1 ++ rest).
  { destruct out_a as [[] | e].
    - destruct Hcont as (en' & tr_after & out_after & _ & Hcont).
      destruct out_after as [[] | e].
      + destruct Hcont as (rd & rest & ->). eexists. reflexivity.
      + destruct Hcont as [-> _]. eexists. reflexivity.
    - destruct Hcont as [-> _]. exists []. symmetry. apply app_nil_r. }
  destruct Hrest as [rest ->]. clear Hcont.
  destruct (notify_cases Ho) as [(e & _ & Htr & _) | (host & subject & message & Hf & [Hok | Hko])].
  - discriminate Htr.
  - destruct Hok as (t & r' & line & _ & _ & _ & Htr & _).
    injection Htr; intros; subst. left. exists line, rest. reflexivity.
  - destruct Hko as (bef & e & ri & Ha & Htr & _).
    destruct Ha as [e Ht | t r' Ht Hd | t r' e Ht Hd Hl]; cbn [app] in Htr.
    + discriminate Htr.
    + injection Htr; intros; subst. congruence.
    + injection Htr; intros; subst. right.
      exists alert, host, subject, message, e, ri, rest. repeat split; assumption.
Qed.

Lemma loggable_delivered_alert_waits en pre channel text r post out :
  loggable alertType ->
  run en (dispatcher JSON_parse alertType)
    = (pre ++ (slack_postMessage channel text, r) :: post, out) ->
  delivered r = true ->
  exists line rest,
    post = quiet (console_log line) :: quiet (setTimeout 5000) :: rest.
Proof.
  intros Hlog H Hr. apply after_delivered_post in H; [| exact Hr].
  destruct H as [Hw | (alert & host & subject & message & e & ri & rest & Hf & Hl & _)].
  - exact Hw.
  - destruct (Hlog _ _ _ _ Hf) as [line Hline]. congruence.
Qed.


(** X8.  When the host, subject or message of an alert cannot be computed (a
    field the formatter reads through is missing), the turn of the record ends
    with that error after the turns of the alerts before: the alert is
    neither posted nor requeued, and the record is not deleted. *)
Theorem malformed_alert_stops_the_record en hit id before alert after tr0 e :
  get hit "_id" = Normal id ->
  decoded_alerts JSON_parse hit = Normal (before ++ alert :: after) ->
  run en (for_each before (notify alertType)) = (tr0, Normal tt) ->
  fields alertType alert = Throw e ->
  run en (process_hit JSON_parse alertType hit) = (tr0, Throw e).
Proof.
  intros Hid Hdec Hbefore Hf.
  unfold process_hit. rewrite Hid. cbn [bind lift].
  unfold decoded_alerts, cbind in Hdec.
  destruct (get_path hit ["_source"; "alertContexts"]) as [text |]; [| discriminate].
  cbn [bind]. destruct (JSON_parse text) as [v |]; [| discriminate].
  cbn [bind]. rewrite run_bind. unfold for_of. rewrite Hdec. cbn [bind lift].
  rewrite run_for_each_app, Hbefore.
  assert (Hturn : forall en', run en' (notify alertType alert) = ([], Throw e)).
  { intro en'. unfold notify. unfold fields, cbind in Hf.
    destruct (get_path alert ["_source"; "host"]) as [host |];
      [| injection Hf as ->; reflexivity].
    cbn [bind lift].
    destruct (getSubjectFunc alertType alert) as [subject |];
      [| injection Hf as ->; reflexivity].
    cbn [bind].
    destruct (getMessageFunc alertType alert) as [message |];
      [discriminate | injection Hf as ->; reflexivity]. }
  cbn [for_each]. rewrite run_bind, Hturn. rewrite app_nil_r. reflexivity.
Qed.

(** X9.  When the text of an alert cannot be built, because host, subject or
    message has no string, nothing is posted: the error goes to the console
    and the alert is inserted into [unsent-slacks]. *)
Theorem unprintable_alert_is_requeued_unposted en alert host subject message e :
  fields alertType alert = Normal (host, subject, message) ->
  notify_text host subject message = Throw e ->
  run en (notify alertType alert)
  = ([quiet (console_error e);
      (es_index unsentSlacksIndex (unsent_body host subject message),
       en 1 (es_index unsentSlacksIndex (unsent_body host subject message)))],
     cbind (en 1 (es_index unsentSlacksIndex (unsent_body host subject message)))
           (fun _ => Normal tt)).
Proof.
  intros Hf Ht. unfold notify. unfold fields, cbind in Hf.
  destruct (get_path alert ["_source"; "host"]) as [h |]; [| discriminate].
  destruct (getSubjectFunc alertType alert) as [s |]; [| discriminate].
  destruct (getMessageFunc alertType alert) as [m |]; [| discriminate].
  injection Hf as -> -> ->.
  cbn [bind lift]. unfold notify_text, cbind in Ht.
  destruct (ToString subject) as [st |].
  - cbn [bind try_catch]. destruct (ToString host) as [ht |].
    + cbn [bind try_catch]. destruct (ToString message) as [mt |]; [discriminate |].
      injection Ht as ->. cbn [bind try_catch run await ret answer infallible later].
      unfold later. destruct (en 1 _); reflexivity.
    + injection Ht as ->. cbn [bind try_catch run await ret answer infallible later].
      unfold later. destruct (en 1 _); reflexivity.
  - injection Ht as ->. cbn [bind try_catch run await ret answer infallible later].
    unfold later. destruct (en 1 _); reflexivity.
Qed.

End DispatcherEdges.

(** X6.  For the same four alert types, a delivered post of the dispatcher is
    followed by the line on the console and a wait of 5000 ms before anything
    else. *)
Theorem templated_alert_delivered_then_wait
        StringToNumber JSON_parse alertType en pre channel text r post out :
  In alertType (templated StringToNumber) ->
  run en (dispatcher JSON_parse alertType)
    = (pre ++ (slack_postMessage channel text, r) :: post, out) ->
  delivered r = true ->
  exists line rest,
    post = quiet (console_log line) :: quiet (setTimeout 5000) :: rest.
Proof.
  intros Hin H Hr. eapply loggable_delivered_alert_waits; try eassumption.
  eapply templated_loggable, Hin.
Qed.

(** ** From the dispatcher's insert to the drainer's post *)

(** X10.  What the dispatcher stores for an alert is what the drainer resends:
    for the entry that holds the stored object, the drainer posts the same
    subject, host and message as the dispatcher did, under the hourglass
    banner and with the notice that the message had failed to send. *)
Theorem requeued_alert_is_resent_with_the_same_fields
        id host subject message host_text subject_text message_text :
  ToString subject = Normal subject_text ->
  ToString host = Normal host_text ->
  ToString message = Normal message_text ->
  notify_text host subject message
    = Normal (slack_text ":anger: " subject_text host_text message_text) /\
  resend_text (document id (unsent_body host subject message))
    = Normal (slack_text ":hourglass_flowing_sand: " subject_text host_text
                (failed_banner +++ LF +++ LF +++ message_text)).
Proof.
  intros Hs Hh Hm. split.
  - unfold notify_text, cbind. rewrite Hs, Hh, Hm. reflexivity.
  - unfold resend_text.
    change (get_path (document id (unsent_body host subject message)) ["_source"; "host"])
      with (Normal (A := value) host).
    change (get_path (document id (unsent_body host subject message)) ["_source"; "subject"])
      with (Normal (A := value) subject).
    change (get_path (document id (unsent_body host subject message)) ["_source"; "message"])
      with (Normal (A := value) message).
    unfold cbind. rewrite Hm, Hs, Hh. reflexivity.
Qed.

(** ** A search that fails or finds nothing *)

(** X1.  A search that throws ends the task with that error, and a search that
    returns no hits ends it normally; in both cases the search is the only
    call of the run.  This holds for the drainer and for every dispatcher. *)
Theorem search_alone :
  (forall en result,
      en O (es_search unsentSlacksIndex) = Normal result ->
      hits_of result = Normal [] ->
      run en drainer = ([(es_search unsentSlacksIndex, Normal result)], Normal tt))
  /\
  (forall en e,
      en O (es_search unsentSlacksIndex) = Throw e ->
      run en drainer = ([(es_search unsentSlacksIndex, Throw e)], Throw e))
  /\
  (forall JSON_parse alertType en result,
      en O (es_search (esIndex alertType)) = Normal result ->
      hits_of result = Normal [] ->
      run en (dispatcher JSON_parse alertType)
      = ([(es_search (esIndex alertType), Normal result)], Normal tt))
  /\
  (forall JSON_parse alertType en e,
      en O (es_search (esIndex alertType)) = Throw e ->
      run en (dispatcher JSON_parse alertType)
      = ([(es_search (esIndex alertType), Throw e)], Throw e)).
Proof.
  repeat split.
  - intros en result Hs Hh. unfold drainer.
    cbn [run bind await lift answer infallible]. rewrite Hs. cbn [bind].
    unfold hits_of, cbind in Hh.
    destruct (get_path result ["hits"; "hits"]) as [v |]; [| discriminate].
    unfold for_of. rewrite Hh. reflexivity.
  - intros en e Hs. unfold drainer.
    cbn [run bind await lift answer infallible]. rewrite Hs. reflexivity.
  - intros JP t en result Hs Hh. unfold dispatcher.
    cbn [run bind await lift answer infallible]. rewrite Hs. cbn [bind].
    unfold hits_of, cbind in Hh.
    destruct (get_path result ["hits"; "hits"]) as [v |]; [| discriminate].
    unfold for_of. rewrite Hh. reflexivity.
  - intros JP t en e Hs. unfold dispatcher.
    cbn [run bind await lift answer infallible]. rewrite Hs. reflexivity.
Qed.

(** ** What is posted *)

(** X11.  Every post goes to the one channel of the script.  A post of a
    dispatcher is the text of an alert of a hit of its search; a post of the
    drainer is the text of a hit of its search. *)
Theorem every_post_is_a_formatted_record :
  (forall JSON_parse alertType en pre channel text r post out,
      run en (dispatcher JSON_parse alertType)
        = (pre ++ (slack_postMessage channel text, r) :: post, out) ->
      channel = slackChannel /\
      exists result hits hit alerts alert host subject message,
        en O (es_search (esIndex alertType)) = Normal result /\
        hits_of result = Normal hits /\
        In hit hits /\
        decoded_alerts JSON_parse hit = Normal alerts /\
        In alert alerts /\
        fields alertType alert = Normal (host, subject, message) /\
        notify_text host subject message = Normal text)
  /\
  (forall en pre channel text r post out,
      run en drainer = (pre ++ (slack_postMessage channel text, r) :: post, out) ->
      channel = slackChannel /\
      exists result hits hit,
        en O (es_search unsentSlacksIndex) = Normal result /\
        hits_of result = Normal hits /\
        In hit hits /\
        resend_text hit = Normal text).
Proof.
  split.
  - intros JP t en pre channel text r post out H.
    apply dispatcher_cut in H.
    destruct H as [[_ Hev] | Hin]; [discriminate Hev |].
    destruct Hin as (result & hits & before & hit & after & en' & pre0 & pre1 & post1 & out_h
                     & Hs & Hhits & -> & _ & Hh & _ & _).
    apply process_hit_cut in Hh. destruct Hh as (id & alerts & _ & Hdec & [Hin | Hdel]).
    2: { destruct Hdel as (rd & Hev & _). discriminate Hev. }
    destruct Hin as (abefore & alert & aafter & tr0 & tr1 & post1' & out_a & -> & _ & Ho & _).
    assert (Hpost : channel = slackChannel /\
                    exists host subject message,
                      fields t alert = Normal (host, subject, message) /\
                      notify_text host subject message = Normal text).
    { destruct (notify_cases Ho) as [(e & _ & Htr & _) | (host & subject & message & Hf & [Hok | Hko])].
      - destruct tr1; discriminate.
      - destruct Hok as (t' & r' & line & Ht & _ & _ & Htr & _).
        unfold quiet in Htr. cuts Htr; try discriminate. same_events. subst.
        split; [reflexivity |]. exists host, subject, message. split; assumption.
      - destruct Hko as (bef & e & ri & Ha & Htr & _).
        unfold quiet in Htr.
        destruct Ha as [e Ht | t' r' Ht Hd | t' r' e Ht Hd Hl];
          cbn [app] in Htr; cuts Htr; try discriminate; same_events; subst;
          (split; [reflexivity |]); exists host, subject, message; split; assumption. }
    destruct Hpost as (-> & host & subject & message & Hf & Ht).
    split; [reflexivity |].
    exists result, (before ++ hit :: after), hit, (abefore ++ alert :: aafter), alert,
      host, subject, message.
    repeat split; try assumption; apply in_elt.
  - intros en pre channel text r post out H.
    apply drainer_cut in H. destruct H as [[_ Hev] | Hin]; [discriminate Hev |].
    destruct Hin as (result & hits & hit & pre0 & pre1 & post1 & out_h & Hs & Hh & Hin & Ho & _ & _).
    outcome_cases Ho Hcut; unfold found_line, quiet in *; try discriminate; same_events; subst.
    all: split; [reflexivity |]; exists result, hits, hit; repeat split; assumption.
Qed.

(** ** An entry that cannot be resent *)

(** X12.  An entry of [unsent-slacks] whose text cannot be built (no [_source],
    or a field that has no string) ends the drainer with that error right
    after the line that announces it: it is neither posted nor deleted, and
    the entries after it are not resent. *)
Theorem unreadable_entry_stops_the_drainer en result before hit after tr0 id id_text e :
  en O (es_search unsentSlacksIndex) = Normal result ->
  hits_of result = Normal (before ++ hit :: after) ->
  run (later en) (for_each before resend) = (tr0, Normal tt) ->
  get hit "_id" = Normal id ->
  ToString id = Normal id_text ->
  resend_text hit = Throw e ->
  run en drainer
  = ((es_search unsentSlacksIndex, Normal result) :: tr0 ++ [found_line id_text], Throw e).
Proof.
  intros Hs Hhits Hbefore Hid Hidt Ht.
  unfold drainer. unfold hits_of, cbind in Hhits.
  cbn [run bind await lift answer infallible]. rewrite Hs. cbn [bind].
  destruct (get_path result ["hits"; "hits"]) as [v |]; [| discriminate].
  unfold for_of. rewrite Hhits. cbn [bind lift].
  rewrite run_for_each_app, Hbefore.
  assert (Hturn : forall en', run en' (resend hit) = ([found_line id_text], Throw e)).
  { intro en'. unfold resend. rewrite Hid. cbn [bind lift]. rewrite Hidt.
    cbn [bind run await answer infallible].
    unfold resend_text, cbind in Ht.
    destruct (get_path hit ["_source"; "host"]) as [host |];
      [| injection Ht as ->; reflexivity].
    cbn [bind].
    destruct (get_path hit ["_source"; "subject"]) as [subject |];
      [| injection Ht as ->; reflexivity].
    cbn [bind].
    destruct (get_path hit ["_source"; "message"]) as [stored |];
      [| injection Ht as ->; reflexivity].
    cbn [bind].
    destruct (ToString stored) as [stored_text |];
      [| injection Ht as ->; reflexivity].
    cbn [bind].
    destruct (ToString subject) as [subject_text |];
      [| injection Ht as ->; reflexivity].
    cbn [bind].
    destruct (ToString host) as [host_text |];
      [discriminate | injection Ht as ->; reflexivity]. }
  cbn [for_each]. rewrite run_bind, Hturn. reflexivity.
Qed.

(** X13.  An alert that was requeued because its text could not be built gives
    an entry whose text cannot be built either. *)
Theorem unprintable_alert_stays_unprintable id host subject message e :
  notify_text host subject message = Throw e ->
  exists e', resend_text (document id (unsent_body host subject message)) = Throw e'.
Proof.
  intro H. unfold resend_text.
  change (get_path (document id (unsent_body host subject message)) ["_source"; "host"])
    with (Normal (A := value) host).
  change (get_path (document id (unsent_body host subject message)) ["_source"; "subject"])
    with (Normal (A := value) subject).
  change (get_path (document id (unsent_body host subject message)) ["_source"; "message"])
    with (Normal (A := value) message).
  unfold notify_text, cbind in H. unfold cbind.
  destruct (ToString message) as [mt | em]; [| eexists; reflexivity].
  destruct (ToString subject) as [st | es]; [| eexists; reflexivity].
  destruct (ToString host) as [ht | eh]; [discriminate | eexists; reflexivity].
Qed.

(** ** The properties on sample runs *)

Lemma search_alone_witness :
  run (always (all_well [])) drainer
  = ([(es_search unsentSlacksIndex, Normal (search_result []))], Normal tt).
Proof. apply (proj1 search_alone); reflexivity. Defined.

Lemma drainer_accounting_witness :
  count is_post (fst calm_drain) <= 2 /\
  count is_delete (fst calm_drain) = count is_delivered_post (fst calm_drain).
Proof.
  apply (@drainer_accounting (always (all_well [nginx_unsent; api_unsent]))
           (search_result [nginx_unsent; api_unsent]) [nginx_unsent; api_unsent]
           (fst calm_drain) (snd calm_drain)).
  - reflexivity.
  - reflexivity.
  - vm_compute. reflexivity.
Defined.

Lemma drainer_complete_run_witness :
  Forall2 (fun hit text => resend_text hit = Normal text)
          [nginx_unsent; api_unsent] (delivered_texts (fst calm_drain)) /\
  Forall2 (fun hit id => get hit "_id" = Normal id)
          [nginx_unsent; api_unsent] (deleted_ids (fst calm_drain)) /\
  count is_post (fst calm_drain) = 2 /\
  count is_delete (fst calm_drain) = 2.
Proof.
  apply (@drainer_complete_run (always (all_well [nginx_unsent; api_unsent]))
           (search_result [nginx_unsent; api_unsent]) [nginx_unsent; api_unsent]
           (fst calm_drain)).
  - reflexivity.
  - reflexivity.
  - vm_compute. reflexivity.
Defined.

Lemma processed_record_accounts_for_every_alert_witness :
  exists id alerts blocks v,
    get (alert_hit "a1" "two-systemd-alerts") "_id" = Normal id /\
    decoded_alerts sample_decoder (alert_hit "a1" "two-systemd-alerts") = Normal alerts /\
    fst calm_record = turns blocks ++ [(es_delete (esIndex systemd) id, Normal v)] /\
    Forall2 (fun (alert : value) b =>
               count is_post b <= 1 /\
               count is_index b <= 1 /\
               count is_delete b = 0 /\
               1 <= count is_delivered_post b + count is_index b)
            alerts blocks.
Proof.
  apply (@processed_record_accounts_for_every_alert sample_decoder systemd
           (always (all_well [alert_hit "a1" "two-systemd-alerts"]))).
  vm_compute. reflexivity.
Defined.

Lemma templated_alert_is_delivered_or_requeued_witness :
  exists id alerts blocks v,
    get (alert_hit "a1" "two-systemd-alerts") "_id" = Normal id /\
    decoded_alerts sample_decoder (alert_hit "a1" "two-systemd-alerts") = Normal alerts /\
    fst calm_record = turns blocks ++ [(es_delete (esIndex systemd) id, Normal v)] /\
    Forall2 (fun (alert : value) b =>
               count is_delivered_post b + count is_index b = 1 /\
               count is_delete b = 0)
            alerts blocks.
Proof.
  apply (@templated_alert_is_delivered_or_requeued no_number sample_decoder systemd
           (always (all_well [alert_hit "a1" "two-systemd-alerts"]))).
  - right. right. left. reflexivity.
  - vm_compute. reflexivity.
Defined.

Lemma templated_alert_delivered_then_wait_witness :
  exists line rest,
    [quiet (console_log "posted 15 chars to Slack"); quiet (setTimeout 5000);
     (es_delete "alerts-systemd" (Str "a1"), Normal Undefined)]
    = quiet (console_log line) :: quiet (setTimeout 5000) :: rest.
Proof.
  apply (@templated_alert_delivered_then_wait no_number sample_decoder systemd
           (always (all_well [alert_hit "a1" "one-systemd-alert"]))
           [(es_search "alerts-systemd",
             Normal (search_result [alert_hit "a1" "one-systemd-alert"]))]
           slackChannel nginx_alert_text (Normal OK) _ (Normal tt)).
  - right. right. left. reflexivity.
  - vm_compute. reflexivity.
  - reflexivity.
Defined.


Lemma malformed_alert_stops_the_record_witness :
  run (always (all_well [])) (process_hit mixed_decoder systemd (alert_hit "a1" "systemd-then-log"))
  = (nginx_posted, Throw TypeError).
Proof.
  apply (@malformed_alert_stops_the_record mixed_decoder systemd (always (all_well []))
           (alert_hit "a1" "systemd-then-log") (Str "a1") [systemd_alert] log_alert []).
  - reflexivity.
  - reflexivity.
  - vm_compute. reflexivity.
  - reflexivity.
Defined.

Lemma unprintable_alert_is_requeued_unposted_witness :
  run (always (all_well [])) (notify log_errors log_alert_with_unprintable_host)
  = ([quiet (console_error TypeError);
      (es_index unsentSlacksIndex
         (unsent_body unprintable (Str "/var/log/app.log") (Str "connection refused")),
       Normal Undefined)],
     Normal tt).
Proof.
  apply (@unprintable_alert_is_requeued_unposted log_errors (always (all_well []))
           log_alert_with_unprintable_host unprintable
           (Str "/var/log/app.log") (Str "connection refused") TypeError).
  - reflexivity.
  - reflexivity.
Defined.

Lemma requeued_alert_is_resent_with_the_same_fields_witness :
  notify_text (Str "web1") (Str "Down systemd service") (Str "nginx is failed")
    = Normal nginx_alert_text /\
  resend_text nginx_unsent = Normal nginx_resend_text.
Proof.
  apply (@requeued_alert_is_resent_with_the_same_fields "u1"
           (Str "web1") (Str "Down systemd service") (Str "nginx is failed")
           "web1" "Down systemd service" "nginx is failed"); reflexivity.
Defined.

Lemma every_post_is_a_formatted_record_witness :
  slackChannel = slackChannel /\
  exists result hits hit,
    always (all_well [nginx_unsent]) O (es_search unsentSlacksIndex) = Normal result /\
    hits_of result = Normal hits /\
    In hit hits /\
    resend_text hit = Normal nginx_resend_text.
Proof.
  apply (proj2 every_post_is_a_formatted_record (always (all_well [nginx_unsent]))
           [(es_search unsentSlacksIndex, Normal (search_result [nginx_unsent]));
            found_line "u1"]
           slackChannel nginx_resend_text (Normal OK)
           [quiet (console_log "posted 69 chars to Slack");
            (es_delete unsentSlacksIndex (Str "u1"), Normal Undefined);
            quiet (setTimeout 5000)]
           (Normal tt)).
  vm_compute. reflexivity.
Defined.

Lemma unreadable_entry_stops_the_drainer_witness :
  run (always (all_well [nginx_unsent; sourceless_unsent; api_unsent])) drainer
  = ((es_search unsentSlacksIndex,
      Normal (search_result [nginx_unsent; sourceless_unsent; api_unsent]))
     :: nginx_resent ++ [found_line "u0"],
     Throw TypeError).
Proof.
  apply (@unreadable_entry_stops_the_drainer
           (always (all_well [nginx_unsent; sourceless_unsent; api_unsent]))
           (search_result [nginx_unsent; sourceless_unsent; api_unsent])
           [nginx_unsent] sourceless_unsent [api_unsent] nginx_resent (Str "u0") "u0" TypeError).
  - reflexivity.
  - reflexivity.
  - vm_compute. reflexivity.
  - reflexivity.
  - reflexivity.
  - reflexivity.
Defined.

Lemma unprintable_alert_stays_unprintable_witness :
  exists e',
    resend_text (document "u9" (unsent_body unprintable (Str "/var/log/app.log")
                                  (Str "connection refused")))
    = Throw e'.
Proof.
  apply (@unprintable_alert_stays_unprintable "u9" unprintable (Str "/var/log/app.log")
           (Str "connection refused") TypeError).
  reflexivity.
Defined.
